(** * Patient Management System API: validation, derivation, merge and sort

    A shallow embedding of [main.py].  The two pydantic models ([Patient],
    [PatientUpdate]) become validation functions from a parsed JSON object
    to a typed record; the request handlers become functions from the
    content of [patients.json] to an outcome and the content of the file
    afterwards.

    Modelling choices, all of them visible in the definitions below:
    - a Python [float] is a binary64 number ([spec_float] with 53 bits
      of precision), infinities, NaN and the two zeros included; [*] and
      [/] round to nearest, ties to even, and comparisons are those of
      IEEE 754.  [x ** 2] is taken to be the correctly rounded square,
      which is what the C library's [pow] returns up to its accuracy in
      the last place;
    - a Python [int] is a [Z];
    - a Python [str] is a [string] whose characters are ASCII; case
      conversion acts on the letters a-z and A-Z only;
    - a Python [dict] keeps insertion order, so the collection is an
      association list;
    - an exception is a value of [exn], and fallible code returns
      [result];
    - a handler is the Python function: its outcome is what the function
      returns or raises, before the framework makes a response of it. *)

From Stdlib Require Import ZArith QArith Qround Qabs.
From Stdlib Require Import SpecFloat.
From Stdlib Require Import List Bool Ascii String.
From Stdlib Require Import Permutation Sorted Lia Lqa.
Import ListNotations.

Local Open Scope string_scope.
Local Open Scope Z_scope.

(** ** Exceptions and results *)

(** The kinds of error pydantic reports for the constraints used here. *)
Inductive ErrKind : Type :=
| missing
| string_type
| int_type
| float_type
| greater_than
| less_than
| literal_error.

(** The exceptions the handlers can raise: [HTTPException] with its status
    code and detail, pydantic's [ValidationError] with one entry (field,
    kind) per offending field, the [ZeroDivisionError] of [/] and the
    [OverflowError] of [**]. *)
Inductive exn : Type :=
| HTTPException (status_code : Z) (detail : string)
| ValidationError (errors : list (string * ErrKind))
| ZeroDivisionError
| OverflowError.

Inductive result (A : Type) : Type :=
| Ok (a : A)
| Raise (e : exn).

Arguments Ok {A} a.
Arguments Raise {A} e.

Definition bind {A B : Type} (r : result A) (k : A -> result B) : result B :=
  match r with
  | Ok a => k a
  | Raise e => Raise e
  end.

Notation "x <- r ;; k" := (bind r (fun x => k))
  (at level 61, r at next level, right associativity).

(** The error kinds of the specification, as the code raises them. *)
Definition RecordNotFound : exn := HTTPException 404 "Patient not found".
Definition DuplicateID : exn := HTTPException 400 "Patient ID already exists".
Definition InvalidSortField : exn :=
  HTTPException 400 "Invalid field select from ['height', 'weight', 'bmi']".
Definition InvalidSortOrder : exn :=
  HTTPException 400 "Invalid order select between asc and desc".

(** [InvalidField field e]: [e] is a validation error that names [field]. *)
Definition InvalidField (field : string) (e : exn) : Prop :=
  match e with
  | ValidationError errors => In field (map fst errors)
  | _ => False
  end.

(** ** Strings: [str.capitalize] *)

Definition is_lower (c : ascii) : bool :=
  let n := nat_of_ascii c in (97 <=? n)%nat && (n <=? 122)%nat.

Definition is_upper (c : ascii) : bool :=
  let n := nat_of_ascii c in (65 <=? n)%nat && (n <=? 90)%nat.

Definition is_ascii (c : ascii) : bool := (nat_of_ascii c <? 128)%nat.

Definition upper_char (c : ascii) : ascii :=
  if is_lower c then ascii_of_nat (nat_of_ascii c - 32) else c.

Definition lower_char (c : ascii) : ascii :=
  if is_upper c then ascii_of_nat (nat_of_ascii c + 32) else c.

(** [str.lower] and [str.upper]. *)
Fixpoint lower (s : string) : string :=
  match s with
  | EmptyString => EmptyString
  | String c s' => String (lower_char c) (lower s')
  end.

Fixpoint upper (s : string) : string :=
  match s with
  | EmptyString => EmptyString
  | String c s' => String (upper_char c) (upper s')
  end.

(** [str.capitalize]: the first character upper-cased, the rest
    lower-cased. *)
Definition capitalize (s : string) : string :=
  match s with
  | EmptyString => EmptyString
  | String c s' => String (upper_char c) (lower s')
  end.

Fixpoint all_chars (p : ascii -> bool) (s : string) : bool :=
  match s with
  | EmptyString => true
  | String c s' => p c && all_chars p s'
  end.

(** ** Numbers: binary64, comparison, [/], [**] and [round] *)

Definition float : Type := spec_float.

Definition fmul : float -> float -> float := SFmul 53 1024.
Definition fdiv : float -> float -> float := SFdiv 53 1024.

(** [x < y], [x <= y] and [x == y]; all three are false when [x] or [y]
    is NaN. *)
Definition flt (x y : float) : bool := SFltb x y.
Definition fle (x y : float) : bool := SFleb x y.

Definition is_nan (x : float) : bool :=
  match x with S754_nan => true | _ => false end.

Definition is_inf (x : float) : bool :=
  match x with S754_infinity _ => true | _ => false end.

Definition is_zero (x : float) : bool :=
  match x with S754_zero _ => true | _ => false end.

Definition is_finite (x : float) : bool :=
  match x with S754_zero _ | S754_finite _ _ _ => true | _ => false end.


Definition fzero : float := S754_zero false.

(** The binary64 number nearest to the fraction [n / d], ties to even:
    the division of two integers is rounded once.  A zero gets the sign
    [s]. *)
Definition nearest_float (s : bool) (n : Z) (d : positive) : float :=
  match n with
  | Z0 => S754_zero s
  | Zpos p => fdiv (S754_finite false p 0) (S754_finite false d 0)
  | Zneg p => fdiv (S754_finite true p 0) (S754_finite false d 0)
  end.

(** The float a decimal literal denotes: [dec 702 1] is [70.2], [dec 25 0]
    is [25.0]. *)
Definition dec (m : Z) (k : nat) : float :=
  nearest_float false m (Z.to_pos (10 ^ Z.of_nat k)).

(** The exact value of a finite float. *)
Definition float_val (x : float) : Q :=
  match x with
  | S754_finite s m e =>
      (inject_Z (if s then Zneg m else Zpos m) * 2 ^ e)%Q
  | _ => 0%Q
  end.

Definition Qltb (x y : Q) : bool :=
  (Qnum x * QDen y <? Qnum y * QDen x)%Z.

(** [x / y] raises [ZeroDivisionError] when [y == 0.0], and is the IEEE
    quotient otherwise; a quotient too large to represent is an
    infinity. *)
Definition truediv (x y : float) : result float :=
  if is_zero y then Raise ZeroDivisionError else Ok (fdiv x y).

(** [x ** 2].  For a finite [x] that is not zero the square comes from
    [pow]: a result too large to represent raises [OverflowError], one too
    small is rounded, down to [0.0].  Zeros, infinities and NaN are
    answered without [pow], by [0.0], [inf] and NaN. *)
Definition pow2 (x : float) : result float :=
  match x with
  | S754_finite _ _ _ =>
      if is_inf (fmul x x) then Raise OverflowError else Ok (fmul x x)
  | _ => Ok (fmul x x)
  end.

(** The integer nearest to [x], a tie going to the even neighbour. *)
Definition round_half_even (x : Q) : Z :=
  let f := Qfloor x in
  let r := (x - inject_Z f)%Q in
  if Qltb r (1 # 2) then f
  else if Qltb (1 # 2) r then f + 1
  else if Z.even f then f else f + 1.

(** [round(x, ndigits)] for [ndigits >= 0].  The exact value of a finite
    [x] is rounded to the nearest multiple of [10 ** -ndigits], half to
    even, and the result is the float nearest to that decimal number;
    infinities and NaN are returned as they are. *)
Definition round (x : float) (ndigits : nat) : float :=
  match x with
  | S754_finite s _ _ =>
      let scale := Z.to_pos (10 ^ Z.of_nat ndigits) in
      nearest_float s
        (round_half_even (float_val x * inject_Z (Zpos scale))) scale
  | _ => x
  end.

(** ** Parsed JSON objects *)

(** The value found under a key of a parsed JSON object: the key is
    absent, or it holds [null], or it holds a value of the expected JSON
    type. *)
Inductive jfield (A : Type) : Type :=
| Absent
| Null
| Value (a : A).

Arguments Absent {A}.
Arguments Null {A}.
Arguments Value {A} a.

(** The keyword arguments a model is built from: a request body, or a
    stored record with its [id] attached.  Keys other than these seven are
    ignored by both models.  A value of another JSON type than the one the
    field expects is excluded by the types of the fields. *)
Record RawObject : Type := mkRaw {
  raw_id : jfield string;
  raw_name : jfield string;
  raw_city : jfield string;
  raw_age : jfield Z;
  raw_gender : jfield string;
  raw_height : jfield float;
  raw_weight : jfield float
}.

(** ** The model [Patient] *)

Record Patient : Type := mkPatient {
  id : string;
  name : string;
  city : string;
  age : Z;
  gender : string;
  height : float;
  weight : float
}.

Definition genders : list string := ["Male"; "Female"; "Others"].

Definition in_literal (v : string) (allowed : list string) : bool :=
  existsb (String.eqb v) allowed.

(** The validator [normalize_gender], run before the [Literal] check. *)
Definition normalize_gender (v : jfield string) : jfield string :=
  match v with
  | Value s => Value (capitalize s)
  | other => other
  end.

(** Validation of one field: the value, or the kind of error. *)
Definition check_str (v : jfield string) : ErrKind + string :=
  match v with
  | Absent => inl missing
  | Null => inl string_type
  | Value s => inr s
  end.

(** [int] with [gt=0, lt=110]. *)
Definition check_age (v : jfield Z) : ErrKind + Z :=
  match v with
  | Absent => inl missing
  | Null => inl int_type
  | Value n =>
      if n <=? 0 then inl greater_than
      else if 110 <=? n then inl less_than
      else inr n
  end.

(** [Literal['Male', 'Female', 'Others']] after [normalize_gender]. *)
Definition check_gender (v : jfield string) : ErrKind + string :=
  match v with
  | Absent => inl missing
  | _ =>
      match normalize_gender v with
      | Value s => if in_literal s genders then inr s else inl literal_error
      | _ => inl literal_error
      end
  end.

(** [float] with [gt=0]; NaN is not greater than 0, an infinity is. *)
Definition check_positive (v : jfield float) : ErrKind + float :=
  match v with
  | Absent => inl missing
  | Null => inl float_type
  | Value x => if flt fzero x then inr x else inl greater_than
  end.

(** The error entry of a field, if its check failed. *)
Definition err_of {A : Type} (field : string) (c : ErrKind + A)
  : list (string * ErrKind) :=
  match c with
  | inl k => [(field, k)]
  | inr _ => []
  end.

(** The constructor [Patient], on keyword arguments: every field is
    checked, and the errors of all fields are reported together, in the
    order of the fields. *)
Definition Patient_validate (kw : RawObject) : result Patient :=
  let c_id := check_str (raw_id kw) in
  let c_name := check_str (raw_name kw) in
  let c_city := check_str (raw_city kw) in
  let c_age := check_age (raw_age kw) in
  let c_gender := check_gender (raw_gender kw) in
  let c_height := check_positive (raw_height kw) in
  let c_weight := check_positive (raw_weight kw) in
  match c_id, c_name, c_city, c_age, c_gender, c_height, c_weight with
  | inr i, inr n, inr c, inr a, inr g, inr h, inr w =>
      Ok (mkPatient i n c a g h w)
  | _, _, _, _, _, _, _ =>
      Raise (ValidationError
               (err_of "id" c_id ++ err_of "name" c_name ++
                err_of "city" c_city ++ err_of "age" c_age ++
                err_of "gender" c_gender ++ err_of "height" c_height ++
                err_of "weight" c_weight))
  end.

(** The computed field [bmi]. *)
Definition bmi (self : Patient) : result float :=
  square <- pow2 (height self) ;;
  quotient <- truediv (weight self) square ;;
  Ok (round quotient 2).

(** The [if]/[elif] chain of the computed field [verdict], on the value
    of [self.bmi]. *)
Definition verdict_of (b : float) : string :=
  if flt b (dec 185 1) then "Underweight"
  else if fle (dec 185 1) b && flt b (dec 249 1) then "Normal weight"
  else if fle (dec 25 0) b && flt b (dec 299 1) then "Overweight"
  else "Obesity".

(** The computed field [verdict]. *)
Definition verdict (self : Patient) : result string :=
  b <- bmi self ;;
  Ok (verdict_of b).

(** ** The stored record and [model_dump] *)

(** One value of the collection: what [model_dump(exclude=['id'])] emits,
    the six stored fields and the two computed ones. *)
Record StoredRecord : Type := mkStored {
  s_name : string;
  s_city : string;
  s_age : Z;
  s_gender : string;
  s_height : float;
  s_weight : float;
  s_bmi : float;
  s_verdict : string
}.

(** [self.model_dump(exclude=['id'])]: the computed fields are evaluated
    here. *)
Definition model_dump (self : Patient) : result StoredRecord :=
  b <- bmi self ;;
  v <- verdict self ;;
  Ok (mkStored (name self) (city self) (age self) (gender self)
               (height self) (weight self) b v).

(** ** The model [PatientUpdate] *)

(** A validated update.  A field is [Absent] when the request did not set
    it, [Null] when it was set to [None], [Value v] otherwise. *)
Record PatientUpdate : Type := mkUpdate {
  u_name : jfield string;
  u_city : jfield string;
  u_age : jfield Z;
  u_gender : jfield string;
  u_height : jfield float;
  u_weight : jfield float
}.

(** [Optional[str] = None]. *)
Definition check_opt_str (v : jfield string) : ErrKind + jfield string :=
  inr v.

(** [Optional[int] = Field(default=None, gt=0)]. *)
Definition check_opt_age (v : jfield Z) : ErrKind + jfield Z :=
  match v with
  | Value n => if n <=? 0 then inl greater_than else inr (Value n)
  | other => inr other
  end.

(** [Optional[Literal['Male', 'Female', 'Others']] = None] after
    [normalize_gender]. *)
Definition check_opt_gender (v : jfield string) : ErrKind + jfield string :=
  match normalize_gender v with
  | Value s => if in_literal s genders then inr (Value s) else inl literal_error
  | other => inr other
  end.

(** [Optional[float] = Field(default=None, gt=0)]. *)
Definition check_opt_positive (v : jfield float)
  : ErrKind + jfield float :=
  match v with
  | Value x => if flt fzero x then inr (Value x) else inl greater_than
  | other => inr other
  end.

(** The constructor [PatientUpdate], on keyword arguments. *)
Definition PatientUpdate_validate (kw : RawObject) : result PatientUpdate :=
  let c_name := check_opt_str (raw_name kw) in
  let c_city := check_opt_str (raw_city kw) in
  let c_age := check_opt_age (raw_age kw) in
  let c_gender := check_opt_gender (raw_gender kw) in
  let c_height := check_opt_positive (raw_height kw) in
  let c_weight := check_opt_positive (raw_weight kw) in
  match c_name, c_city, c_age, c_gender, c_height, c_weight with
  | inr n, inr c, inr a, inr g, inr h, inr w => Ok (mkUpdate n c a g h w)
  | _, _, _, _, _, _ =>
      Raise (ValidationError
               (err_of "name" c_name ++ err_of "city" c_city ++
                err_of "age" c_age ++ err_of "gender" c_gender ++
                err_of "height" c_height ++ err_of "weight" c_weight))
  end.

(** The update that sets no field. *)
Definition empty_update : PatientUpdate :=
  mkUpdate Absent Absent Absent Absent Absent Absent.

(** ** The collection: a [dict] from patient ID to stored record *)

Definition Collection : Type := list (string * StoredRecord).

(** [k in d]. *)
Fixpoint dict_mem (k : string) (d : Collection) : bool :=
  match d with
  | [] => false
  | (k', _) :: d' => if String.eqb k k' then true else dict_mem k d'
  end.

(** [d[k]], for a key that may be missing. *)
Fixpoint dict_get (k : string) (d : Collection) : option StoredRecord :=
  match d with
  | [] => None
  | (k', v) :: d' => if String.eqb k k' then Some v else dict_get k d'
  end.

(** [d[k] = v]: the value of an existing key is replaced where it stands,
    a new key is added at the end. *)
Fixpoint dict_set (k : string) (v : StoredRecord) (d : Collection)
  : Collection :=
  match d with
  | [] => [(k, v)]
  | (k', v') :: d' =>
      if String.eqb k k' then (k', v) :: d' else (k', v') :: dict_set k v d'
  end.

(** [del d[k]]. *)
Fixpoint dict_del (k : string) (d : Collection) : Collection :=
  match d with
  | [] => []
  | (k', v') :: d' =>
      if String.eqb k k' then d' else (k', v') :: dict_del k d'
  end.

(** The keys of a [dict] are distinct. *)
Definition dict_ok (d : Collection) : Prop := NoDup (map fst d).

(** ** The handlers *)

(** A successful response: status code and message. *)
Definition Response : Type := (Z * string)%type.

(** The state is the content of [patients.json]; [load_data] reads it and
    [save_data] overwrites it. *)
Definition load_data (file : Collection) : Collection := file.
Definition save_data (data : Collection) (file : Collection) : Collection :=
  data.

(** The keyword arguments [pdata] with [pdata["id"] = pid]; the keys
    [bmi] and [verdict] of a stored record are ignored by [Patient]. *)
Definition kwargs_of (pid : string) (pdata : StoredRecord) : RawObject :=
  mkRaw (Value pid) (Value (s_name pdata)) (Value (s_city pdata))
        (Value (s_age pdata)) (Value (s_gender pdata))
        (Value (s_height pdata)) (Value (s_weight pdata)).

(** [POST /create]. *)
Definition create_patient (patient : Patient) (file : Collection)
  : result Response * Collection :=
  let data := load_data file in
  if dict_mem (id patient) data then
    (Raise (HTTPException 400 "Patient ID already exists"), file)
  else
    match model_dump patient with
    | Raise e => (Raise e, file)
    | Ok d =>
        let data := dict_set (id patient) d data in
        (Ok (201, "Patient record created successfully"),
         save_data data file)
    end.

(** One step of the loop [for key, value in updated_patient_data.items()]:
    a field the update has set overwrites the stored one. *)
Definition overwrite {A : Type} (existing : jfield A) (upd : jfield A)
  : jfield A :=
  match upd with
  | Absent => existing
  | set => set
  end.

(** [existing_patient_data] after the loop and after
    [existing_patient_data['id'] = patient_id]. *)
Definition merged_kwargs (patient_id : string) (existing : StoredRecord)
  (patient_update : PatientUpdate) : RawObject :=
  let kw := kwargs_of patient_id existing in
  mkRaw (raw_id kw)
        (overwrite (raw_name kw) (u_name patient_update))
        (overwrite (raw_city kw) (u_city patient_update))
        (overwrite (raw_age kw) (u_age patient_update))
        (overwrite (raw_gender kw) (u_gender patient_update))
        (overwrite (raw_height kw) (u_height patient_update))
        (overwrite (raw_weight kw) (u_weight patient_update)).

(** [PUT /edit/{patient_id}]. *)
Definition update_patient (patient_id : string)
  (patient_update : PatientUpdate) (file : Collection)
  : result Response * Collection :=
  let data := load_data file in
  match dict_get patient_id data with
  | None => (Raise (HTTPException 404 "Patient not found"), file)
  | Some existing_patient_data =>
      match
        (patient_pydantic_obj <-
           Patient_validate
             (merged_kwargs patient_id existing_patient_data patient_update) ;;
         model_dump patient_pydantic_obj)
      with
      | Raise e => (Raise e, file)
      | Ok existing_patient_data =>
          let data := dict_set patient_id existing_patient_data data in
          (Ok (200, "Patient record updated successfully"),
           save_data data file)
      end
  end.

(** [DELETE /delete/{patient_id}]. *)
Definition delete_patient (patient_id : string) (file : Collection)
  : result Response * Collection :=
  let data := load_data file in
  if negb (dict_mem patient_id data) then
    (Raise (HTTPException 404 "Patient not found"), file)
  else
    let data := dict_del patient_id data in
    (Ok (200, "Patient record deleted successfully"), save_data data file).

(** ** [sorted] and [GET /sort] *)

Section Sorted.
Context {A : Type}.
Variable key : A -> float.

(** [x] is put in front of the first element whose key is not smaller
    than its own.  List sorting compares keys with [<] only. *)
Fixpoint insert (x : A) (l : list A) : list A :=
  match l with
  | [] => [x]
  | y :: l' =>
      if flt (key y) (key x) then y :: insert x l' else x :: y :: l'
  end.

(** A stable sort by ascending key. *)
Definition stable_sort (l : list A) : list A := fold_right insert [] l.

(** [sorted(l, key=key, reverse=reverse)].  The sort is stable; with
    [reverse] the list is reversed, sorted by ascending key and reversed
    again, which keeps elements of equal key in their original order.
    The result is the one every stable sort gives as long as no key is
    NaN; with a NaN among the keys [<] is no order and the result of the
    list sort is not described here. *)
Definition sorted (l : list A) (reverse : bool) : list A :=
  if reverse then rev (stable_sort (rev l)) else stable_sort l.
End Sorted.

(** [x.get(key, default)] on a dumped record, for the keys that hold a
    number; the handler asks for [height], [weight] or [bmi] only. *)
Definition record_get (x : StoredRecord) (key : string) (default : float)
  : float :=
  if String.eqb key "height" then s_height x
  else if String.eqb key "weight" then s_weight x
  else if String.eqb key "bmi" then s_bmi x
  else if String.eqb key "age" then nearest_float false (s_age x) 1
  else default.

(** The two loops that turn every stored record into a [Patient] and dump
    it again; the first exception ends the request. *)
Fixpoint map_result {A B : Type} (f : A -> result B) (l : list A)
  : result (list B) :=
  match l with
  | [] => Ok []
  | a :: l' =>
      b <- f a ;;
      bs <- map_result f l' ;;
      Ok (b :: bs)
  end.

Definition valid_fields : list string := ["height"; "weight"; "bmi"].

(** [GET /sort]; the file is read and never written. *)
Definition sort_patients (sort_by : string) (order : string)
  (file : Collection) : result (list StoredRecord) :=
  if negb (in_literal sort_by valid_fields) then
    Raise (HTTPException 400
             "Invalid field select from ['height', 'weight', 'bmi']")
  else if negb (in_literal order ["asc"; "desc"]) then
    Raise (HTTPException 400 "Invalid order select between asc and desc")
  else
    let data := load_data file in
    patients <-
      map_result (fun item => Patient_validate (kwargs_of (fst item) (snd item)))
                 data ;;
    let reverse_sort := if String.eqb order "desc" then true else false in
    dumped <- map_result model_dump patients ;;
    Ok (sorted (fun x => record_get x sort_by fzero) dumped reverse_sort).

(** ** Well-formed records *)

(** The bmi derived from a height and a weight. *)
Definition derived_bmi (height weight : float) : result float :=
  square <- pow2 height ;;
  quotient <- truediv weight square ;;
  Ok (round quotient 2).

(** A stored record as the data model describes it: the constraints of
    the stored fields, and the computed fields consistent with height and
    weight. *)
Definition wf_record (r : StoredRecord) : Prop :=
  0 < s_age r < 110 /\
  In (s_gender r) genders /\
  flt fzero (s_height r) = true /\
  flt fzero (s_weight r) = true /\
  derived_bmi (s_height r) (s_weight r) = Ok (s_bmi r) /\
  s_verdict r = verdict_of (s_bmi r).



(** The value of a field after a merge, as the specification words it:
    the update's value when it supplies one, the existing value
    otherwise. *)
Definition merged {A : Type} (upd : jfield A) (existing : A) : A :=
  match upd with
  | Value v => v
  | _ => existing
  end.

(** The values an update supplies satisfy the constraints of the full
    record. *)
Definition supplied_str (v : jfield string) : Prop := v <> Null.

Definition supplied_age (v : jfield Z) : Prop :=
  match v with
  | Absent => True
  | Null => False
  | Value n => 0 < n < 110
  end.

Definition supplied_gender (v : jfield string) : Prop :=
  match v with
  | Absent => True
  | Null => False
  | Value g => In g genders
  end.

Definition supplied_positive (v : jfield float) : Prop :=
  match v with
  | Absent => True
  | Null => False
  | Value x => flt fzero x = true
  end.

Definition supplied_ok (u : PatientUpdate) : Prop :=
  supplied_str (u_name u) /\ supplied_str (u_city u) /\
  supplied_age (u_age u) /\ supplied_gender (u_gender u) /\
  supplied_positive (u_height u) /\ supplied_positive (u_weight u).

(** The stored fields of a record satisfy the constraints of the full
    record, the gender in its canonical form; nothing is asked of bmi
    and verdict. *)
Definition stored_fields_ok (r : StoredRecord) : Prop :=
  0 < s_age r < 110 /\
  In (s_gender r) genders /\
  flt fzero (s_height r) = true /\
  flt fzero (s_weight r) = true.

(** The key the handler sorts by. *)
Definition sort_key (sort_by : string) (x : StoredRecord) : float :=
  record_get x sort_by fzero.




(** The patient a stored record describes. *)
Definition patient_of (pid : string) (r : StoredRecord) : Patient :=
  mkPatient pid (s_name r) (s_city r) (s_age r) (s_gender r)
            (s_height r) (s_weight r).

(** What the sort makes of one item of the collection: the record is
    turned into a patient and dumped again. *)
Definition materialize (item : string * StoredRecord) : result StoredRecord :=
  p <- Patient_validate (kwargs_of (fst item) (snd item)) ;;
  model_dump p.

(** The record a merge stores when the bmi of the merged height and
    weight is [b]: every stored field merged, the gender capitalized, the
    verdict that of [b]. *)
Definition merged_record (old : StoredRecord) (u : PatientUpdate) (b : float)
  : StoredRecord :=
  mkStored (merged (u_name u) (s_name old)) (merged (u_city u) (s_city old))
           (merged (u_age u) (s_age old))
           (capitalize (merged (u_gender u) (s_gender old)))
           (merged (u_height u) (s_height old))
           (merged (u_weight u) (s_weight old))
           b (verdict_of b).

(** A lexicographic order on triples of integers, and the triple whose
    order is that of the floats. *)
Definition lex_lt (a b : Z * Z * Z) : Prop :=
  let '(a1, a2, a3) := a in
  let '(b1, b2, b3) := b in
  a1 < b1 \/ (a1 = b1 /\ (a2 < b2 \/ (a2 = b2 /\ a3 < b3))).

Definition rank (x : float) : Z * Z * Z :=
  match x with
  | S754_nan => (0, 0, 0)
  | S754_zero _ => (0, 0, 0)
  | S754_infinity true => (-2, 0, 0)
  | S754_infinity false => (2, 0, 0)
  | S754_finite false m e => (1, e, Zpos m)
  | S754_finite true m e => (-1, - e, Zneg m)
  end.

(** ** Sample data *)

(** The request body of the end-to-end example. *)
Definition john_doe_body : RawObject :=
  mkRaw (Value "P001") (Value "John Doe") (Value "New York") (Value 30)
        (Value "male") (Value (dec 175 2)) (Value (dec 702 1)).

Definition john_doe : Patient :=
  mkPatient "P001" "John Doe" "New York" 30 "Male" (dec 175 2) (dec 702 1).

Definition john_doe_stored : StoredRecord :=
  mkStored "John Doe" "New York" 30 "Male" (dec 175 2) (dec 702 1)
           (dec 2292 2) "Normal weight".

(** The body of the example with an empty name and an empty city. *)
Definition blank_names_body : RawObject :=
  mkRaw (Value "P001") (Value "") (Value "") (Value 30)
        (Value "male") (Value (dec 175 2)) (Value (dec 702 1)).

(** An update body that sets the age to 150 and nothing else. *)
Definition age_150_body : RawObject :=
  mkRaw Absent Absent Absent (Value 150) Absent Absent Absent.

Definition age_150_update : PatientUpdate :=
  mkUpdate Absent Absent (Value 150) Absent Absent Absent.

(** Three records: A and B with bmi 20, C with bmi 18. *)
Definition rec_A : StoredRecord :=
  mkStored "A" "Pune" 30 "Male" (dec 1 0) (dec 20 0) (dec 2000 2)
           "Normal weight".
Definition rec_B : StoredRecord :=
  mkStored "B" "Pune" 41 "Female" (dec 2 0) (dec 80 0) (dec 2000 2)
           "Normal weight".
Definition rec_C : StoredRecord :=
  mkStored "C" "Pune" 52 "Others" (dec 1 0) (dec 18 0) (dec 1800 2)
           "Underweight".

Definition abc : Collection := [("A", rec_A); ("B", rec_B); ("C", rec_C)].

Definition one_patient : Collection := [("P001", john_doe_stored)].

(** A collection whose one record has a lower-case gender and computed
    fields that are out of date. *)
Definition stale_record : StoredRecord :=
  mkStored "S" "Pune" 30 "male" (dec 1 0) (dec 20 0) fzero "unknown".

Definition stale_collection : Collection := [("S", stale_record)].

(** The same record with the gender capitalized and the computed fields
    brought up to date. *)
Definition refreshed_record : StoredRecord :=
  mkStored "S" "Pune" 30 "Male" (dec 1 0) (dec 20 0) (dec 2000 2)
           "Normal weight".

(** The float nearest to 1e-200, whose square is too small for a
    binary64 number other than zero, and the float nearest to 1e200,
    whose square is too large. *)
Definition tiny : float := dec 1 200.
Definition huge : float := nearest_float false (10 ^ 200) 1.


Definition tiny_patient : Patient :=
  mkPatient "T001" "Tom Thumb" "Pune" 30 "Male" tiny (dec 70 0).


(** A second patient, of height 1.6 and weight 56, and an update that
    changes a name and nothing else. *)
Definition jane_roe_body : RawObject :=
  mkRaw (Value "P002") (Value "Jane Roe") (Value "Boston") (Value 41)
        (Value "FEMALE") (Value (dec 16 1)) (Value (dec 56 0)).

Definition rename_body : RawObject :=
  mkRaw Absent (Value "Jane Doe") Absent Absent Absent Absent Absent.

Definition rename_update : PatientUpdate :=
  mkUpdate (Value "Jane Doe") Absent Absent Absent Absent Absent.

(** Record B after its weight was set to 90. *)
Definition rec_B_90 : StoredRecord :=
  mkStored "B" "Pune" 41 "Female" (dec 2 0) (dec 90 0) (dec 2250 2)
           "Normal weight".

(** ** The read handlers *)

(** [GET /view]. *)
Definition view (file : Collection) : Collection := load_data file.

(** [GET /patient/{patient_id}]. *)
Definition view_patient (patient_id : string) (file : Collection)
  : result StoredRecord :=
  let data := load_data file in
  match dict_get patient_id data with
  | Some pdata => Ok pdata
  | None => Raise (HTTPException 404 "Patient not found")
  end.

(** ** Requests *)

(** The three requests that write the file, with the body as it arrives.
    The framework builds the handler's parameter from the body with the
    model named in the handler's signature, and answers a body that fails
    validation without calling the handler. *)
Inductive request : Type :=
| POST_create (body : RawObject)
| PUT_edit (patient_id : string) (body : RawObject)
| DELETE_delete (patient_id : string).

Definition handle (r : request) (file : Collection)
  : result Response * Collection :=
  match r with
  | POST_create body =>
      match Patient_validate body with
      | Ok patient => create_patient patient file
      | Raise e => (Raise e, file)
      end
  | PUT_edit patient_id body =>
      match PatientUpdate_validate body with
      | Ok patient_update => update_patient patient_id patient_update file
      | Raise e => (Raise e, file)
      end
  | DELETE_delete patient_id => delete_patient patient_id file
  end.

(** The file after a sequence of requests. *)
Fixpoint run (requests : list request) (file : Collection) : Collection :=
  match requests with
  | [] => file
  | r :: rest => run rest (snd (handle r file))
  end.

(** A collection with distinct keys and well-formed records. *)
Definition wf_collection (d : Collection) : Prop :=
  dict_ok d /\ Forall (fun item => wf_record (snd item)) d.

(** An update that came out of the validation of [PatientUpdate]. *)
Definition validated (u : PatientUpdate) : Prop :=
  exists body : RawObject, PatientUpdate_validate body = Ok u.

(** The keyword arguments [kw] with another gender. *)
Definition with_gender (kw : RawObject) (g : string) : RawObject :=
  mkRaw (raw_id kw) (raw_name kw) (raw_city kw) (raw_age kw) (Value g)
        (raw_height kw) (raw_weight kw).

(** * Properties *)

(** ** Rounding to an integer *)





(** ** The order of the floats *)

Lemma lex_lt_trans (a b c : Z * Z * Z) :
  lex_lt a b -> lex_lt b c -> lex_lt a c.
Proof.
  destruct a as [[? ?] ?], b as [[? ?] ?], c as [[? ?] ?].
  unfold lex_lt. lia.
Qed.

Lemma lex_lt_irrefl (a : Z * Z * Z) : ~ lex_lt a a.
Proof. destruct a as [[? ?] ?]. unfold lex_lt. lia. Qed.

Lemma lex_lt_total (a b : Z * Z * Z) : lex_lt a b \/ a = b \/ lex_lt b a.
Proof.
  destruct a as [[a1 a2] a3], b as [[b1 b2] b3]. unfold lex_lt.
  destruct (Z.eq_dec a1 b1), (Z.eq_dec a2 b2), (Z.eq_dec a3 b3);
    subst; try tauto; lia.
Qed.

(** On floats that are not NaN, the comparison is that of the ranks. *)
Lemma SFcompare_rank (x y : float) :
  is_nan x = false -> is_nan y = false ->
  match SFcompare x y with
  | Some Lt => lex_lt (rank x) (rank y)
  | Some Eq => rank x = rank y
  | Some Gt => lex_lt (rank y) (rank x)
  | None => False
  end.
Proof.
  destruct x as [[]|[]| |[] mx ex], y as [[]|[]| |[] my ey];
    try discriminate; intros _ _; simpl; try reflexivity; try lia;
    change (Pos.compare_cont Eq mx my) with (Pos.compare mx my);
    destruct (Z.compare_spec ex ey); simpl; try lia;
    destruct (Pos.compare_spec mx my); simpl; subst;
    try reflexivity; try lia.
Qed.

Lemma SFcompare_nan (x y : float) :
  SFcompare x y <> None -> is_nan x = false /\ is_nan y = false.
Proof.
  destruct x as [[]|[]| |[] mx ex], y as [[]|[]| |[] my ey]; simpl;
    intros H; try (split; reflexivity); now contradiction H.
Qed.

Lemma flt_not_nan (x y : float) :
  flt x y = true -> is_nan x = false /\ is_nan y = false.
Proof.
  unfold flt, SFltb. intros H. apply SFcompare_nan.
  destruct (SFcompare x y); [discriminate | discriminate H].
Qed.

Lemma fle_not_nan (x y : float) :
  fle x y = true -> is_nan x = false /\ is_nan y = false.
Proof.
  unfold fle, SFleb. intros H. apply SFcompare_nan.
  destruct (SFcompare x y); [discriminate | discriminate H].
Qed.


Lemma flt_rank (x y : float) :
  is_nan x = false -> is_nan y = false ->
  (flt x y = true <-> lex_lt (rank x) (rank y)).
Proof.
  intros Hx Hy. pose proof (SFcompare_rank x y Hx Hy) as H.
  unfold flt, SFltb.
  destruct (SFcompare x y) as [[]|]; split; intros H0;
    try discriminate; try reflexivity; try assumption; try contradiction.
  - rewrite H in H0. now apply lex_lt_irrefl in H0.
  - exfalso. apply (lex_lt_irrefl (rank x)).
    eapply lex_lt_trans; eassumption.
Qed.

Lemma fle_rank (x y : float) :
  is_nan x = false -> is_nan y = false ->
  (fle x y = true <-> lex_lt (rank x) (rank y) \/ rank x = rank y).
Proof.
  intros Hx Hy. pose proof (SFcompare_rank x y Hx Hy) as H.
  unfold fle, SFleb.
  destruct (SFcompare x y) as [[]|]; split; intros H0;
    try discriminate; try reflexivity; try tauto.
  destruct H0 as [H0 | H0].
  - exfalso. apply (lex_lt_irrefl (rank x)).
    eapply lex_lt_trans; eassumption.
  - rewrite H0 in H. now apply lex_lt_irrefl in H.
Qed.



Lemma flt_false_fle (x y : float) :
  is_nan x = false -> is_nan y = false ->
  flt x y = false -> fle y x = true.
Proof.
  intros Hx Hy H. apply (fle_rank y x Hy Hx).
  destruct (lex_lt_total (rank x) (rank y)) as [Hlt | [Heq | Hgt]].
  - apply (flt_rank x y Hx Hy) in Hlt. congruence.
  - right. now symmetry.
  - now left.
Qed.



Lemma flt_rank_false (x y : float) :
  is_nan x = false -> is_nan y = false ->
  (flt x y = false <-> ~ lex_lt (rank x) (rank y)).
Proof.
  intros Hx Hy. rewrite <- (flt_rank x y Hx Hy).
  destruct (flt x y); split; intros H; try reflexivity; try discriminate.
  - now contradiction H.
Qed.

Lemma fle_rank_false (x y : float) :
  is_nan x = false -> is_nan y = false ->
  (fle x y = false <-> ~ (lex_lt (rank x) (rank y) \/ rank x = rank y)).
Proof.
  intros Hx Hy. rewrite <- (fle_rank x y Hx Hy).
  destruct (fle x y); split; intros H; try reflexivity; try discriminate.
  - now contradiction H.
Qed.

Lemma triple_eq (a1 a2 a3 b1 b2 b3 : Z) :
  (a1, a2, a3) = (b1, b2, b3) <-> a1 = b1 /\ a2 = b2 /\ a3 = b3.
Proof.
  split.
  - intros H. now injection H.
  - intros (-> & -> & ->). reflexivity.
Qed.

(** Comparisons of a float [b] that is not NaN with constants, decided
    on the ranks. *)
Ltac rank_const c :=
  let r := eval vm_compute in (rank c) in
  change (rank c) with r in *.

Ltac by_rank b Hb :=
  repeat match goal with
    | H : flt b ?c = true |- _ =>
        apply (proj1 (flt_rank b c Hb eq_refl)) in H; rank_const c
    | H : flt b ?c = false |- _ =>
        apply (proj1 (flt_rank_false b c Hb eq_refl)) in H; rank_const c
    | H : fle ?c b = true |- _ =>
        apply (proj1 (fle_rank c b eq_refl Hb)) in H; rank_const c
    | H : fle ?c b = false |- _ =>
        apply (proj1 (fle_rank_false c b eq_refl Hb)) in H; rank_const c
    end;
  destruct (rank b) as [[? ?] ?];
  unfold lex_lt in *; rewrite ?triple_eq in *;
  repeat match goal with
    | H : context [(_, _, _) = (_, _, _)] |- _ => rewrite triple_eq in H
    end.

(** ** The bmi *)

Lemma bmi_derived (p : Patient) :
  bmi p = derived_bmi (height p) (weight p).
Proof. reflexivity. Qed.



Lemma derived_bmi_square (h w : float) :
  is_zero (fmul h h) = false ->
  (is_finite h = true -> is_inf (fmul h h) = false) ->
  derived_bmi h w = Ok (round (fdiv w (fmul h h)) 2).
Proof.
  intros Hz Hinf. unfold derived_bmi, pow2.
  destruct h; try rewrite (Hinf eq_refl); cbn [bind]; unfold truediv;
    now rewrite Hz.
Qed.




(** The bmi of three more patients: the binary64 quotient of 56 by the
    square of 1.6 is just below 21.875, and that of 57.6 by the square of
    1.92 is 15.625 exactly, a tie that goes to the even hundredth; a
    height of 1e200 has a square too large. *)
Lemma bmi_examples :
  bmi (mkPatient "P" "N" "C" 30 "Male" (dec 16 1) (dec 56 0))
  = Ok (dec 2187 2) /\
  bmi (mkPatient "P" "N" "C" 30 "Male" (dec 192 2) (dec 576 1))
  = Ok (dec 1562 2) /\
  bmi (mkPatient "P" "N" "C" 30 "Male" huge (dec 70 0))
  = Raise OverflowError.
Proof. repeat apply conj; vm_compute; reflexivity. Qed.

Lemma verdict_of_bmi (p : Patient) (b : float) :
  bmi p = Ok b -> verdict p = Ok (verdict_of b).
Proof. intros H. unfold verdict. rewrite H. reflexivity. Qed.

(** Claim C2.  The verdict of a record is read off its bmi, the first
    matching threshold winning: below 18.5 Underweight, from 18.5 and below
    24.9 Normal weight, from 25 and below 29.9 Overweight, and Obesity for
    everything else, that is from 24.9 and below 25, and from 29.9 on. *)
Theorem verdict_thresholds (p : Patient) (b : float) :
  bmi p = Ok b ->
  (flt b (dec 185 1) = true -> verdict p = Ok "Underweight") /\
  (fle (dec 185 1) b = true -> flt b (dec 249 1) = true ->
   verdict p = Ok "Normal weight") /\
  (fle (dec 25 0) b = true -> flt b (dec 299 1) = true ->
   verdict p = Ok "Overweight") /\
  (fle (dec 249 1) b = true -> flt b (dec 25 0) = true ->
   verdict p = Ok "Obesity") /\
  (fle (dec 299 1) b = true -> verdict p = Ok "Obesity").
Proof.
  intros Hb. rewrite (verdict_of_bmi p b Hb). unfold verdict_of.
  repeat apply conj.
  - intros H. now rewrite H.
  - intros H1 H2. destruct (flt_not_nan _ _ H2) as [Hnan _].
    rewrite H1, H2. cbn [andb].
    destruct (flt b (dec 185 1)) eqn:E1; [|reflexivity].
    exfalso. by_rank b Hnan. lia.
  - intros H1 H2. destruct (flt_not_nan _ _ H2) as [Hnan _].
    rewrite H1, H2. cbn [andb].
    destruct (flt b (dec 185 1)) eqn:E1; [exfalso; by_rank b Hnan; lia|].
    destruct (flt b (dec 249 1)) eqn:E2; [exfalso; by_rank b Hnan; lia|].
    now rewrite andb_false_r.
  - intros H1 H2. destruct (flt_not_nan _ _ H2) as [Hnan _].
    destruct (flt b (dec 185 1)) eqn:E1; [exfalso; by_rank b Hnan; lia|].
    destruct (flt b (dec 249 1)) eqn:E2; [exfalso; by_rank b Hnan; lia|].
    rewrite andb_false_r.
    destruct (fle (dec 25 0) b) eqn:E3; [exfalso; by_rank b Hnan; lia|].
    reflexivity.
  - intros H1. destruct (fle_not_nan _ _ H1) as [_ Hnan].
    destruct (flt b (dec 185 1)) eqn:E1; [exfalso; by_rank b Hnan; lia|].
    destruct (flt b (dec 249 1)) eqn:E2; [exfalso; by_rank b Hnan; lia|].
    rewrite andb_false_r.
    destruct (flt b (dec 299 1)) eqn:E3; [exfalso; by_rank b Hnan; lia|].
    now rewrite andb_false_r.
Qed.

Lemma verdict_thresholds_witness :
  verdict john_doe = Ok "Normal weight".
Proof.
  apply (proj1 (proj2 (verdict_thresholds john_doe (dec 2292 2)
                         ltac:(vm_compute; reflexivity))));
    vm_compute; reflexivity.
Defined.
(** ** Strings *)

Ltac by_chars c := destruct c as [[] [] [] [] [] [] [] []]; reflexivity.

Lemma upper_char_idem (c : ascii) : upper_char (upper_char c) = upper_char c.
Proof. by_chars c. Qed.

Lemma lower_char_idem (c : ascii) : lower_char (lower_char c) = lower_char c.
Proof. by_chars c. Qed.

Lemma upper_lower_char (c : ascii) : upper_char (lower_char c) = upper_char c.
Proof. by_chars c. Qed.

Lemma lower_upper_char (c : ascii) : lower_char (upper_char c) = lower_char c.
Proof. by_chars c. Qed.

Lemma upper_char_not_lower (c : ascii) : is_lower (upper_char c) = false.
Proof. by_chars c. Qed.

Lemma lower_char_not_upper (c : ascii) : is_upper (lower_char c) = false.
Proof. by_chars c. Qed.

Lemma lower_idem (s : string) : lower (lower s) = lower s.
Proof.
  induction s as [|c s IH]; simpl; [reflexivity|].
  now rewrite lower_char_idem, IH.
Qed.

Lemma lower_no_upper (s : string) :
  all_chars (fun c => negb (is_upper c)) (lower s) = true.
Proof.
  induction s as [|c s IH]; simpl; [reflexivity|].
  now rewrite lower_char_not_upper, IH.
Qed.

Lemma lower_capitalize (s : string) : lower (capitalize s) = lower s.
Proof.
  destruct s as [|c s]; simpl; [reflexivity|].
  now rewrite lower_upper_char, lower_idem.
Qed.

Lemma capitalize_idem (s : string) : capitalize (capitalize s) = capitalize s.
Proof.
  destruct s as [|c s]; simpl; [reflexivity|].
  now rewrite upper_char_idem, lower_idem.
Qed.

(** [capitalize] depends on its argument up to case only. *)
Lemma capitalize_lower (s : string) : capitalize (lower s) = capitalize s.
Proof.
  destruct s as [|c s]; simpl; [reflexivity|].
  now rewrite upper_lower_char, lower_idem.
Qed.

Lemma in_literal_In (v : string) (allowed : list string) :
  in_literal v allowed = true <-> In v allowed.
Proof.
  unfold in_literal. rewrite existsb_exists. split.
  - intros [x [Hx Heq]]. apply String.eqb_eq in Heq. now subst.
  - intros H. exists v. split; [assumption | apply String.eqb_refl].
Qed.

Lemma in_literal_not_In (v : string) (allowed : list string) :
  in_literal v allowed = false <-> ~ In v allowed.
Proof.
  rewrite <- in_literal_In. destruct (in_literal v allowed); split; intros H;
    try discriminate; try reflexivity; try (intros H'; discriminate).
  exfalso. now apply H.
Qed.

Lemma capitalize_gender (g : string) : In g genders -> capitalize g = g.
Proof.
  intros [H | [H | [H | []]]]; subst; reflexivity.
Qed.

(** ** Validation, field by field *)

Lemma check_gender_Value (g : string) :
  check_gender (Value g) =
  if in_literal (capitalize g) genders then inr (capitalize g)
  else inl literal_error.
Proof. reflexivity. Qed.

Lemma check_opt_gender_Value (g : string) :
  check_opt_gender (Value g) =
  if in_literal (capitalize g) genders then inr (Value (capitalize g))
  else inl literal_error.
Proof. reflexivity. Qed.

(** A failed check of a field puts the field among the errors. *)
Ltac field_error :=
  repeat match goal with
         | |- context [err_of _ ?c] => destruct c; cbn [err_of app]
         end;
  eexists; (split; [reflexivity | cbn; tauto]).

Lemma Patient_name_error (kw : RawObject) (k : ErrKind) :
  check_str (raw_name kw) = inl k ->
  exists e, Patient_validate kw = Raise e /\ InvalidField "name" e.
Proof. intros H. unfold Patient_validate. rewrite H. field_error. Qed.

Lemma Patient_city_error (kw : RawObject) (k : ErrKind) :
  check_str (raw_city kw) = inl k ->
  exists e, Patient_validate kw = Raise e /\ InvalidField "city" e.
Proof. intros H. unfold Patient_validate. rewrite H. field_error. Qed.

Lemma Patient_age_error (kw : RawObject) (k : ErrKind) :
  check_age (raw_age kw) = inl k ->
  exists e, Patient_validate kw = Raise e /\ InvalidField "age" e.
Proof. intros H. unfold Patient_validate. rewrite H. field_error. Qed.

Lemma Patient_gender_error (kw : RawObject) (k : ErrKind) :
  check_gender (raw_gender kw) = inl k ->
  exists e, Patient_validate kw = Raise e /\ InvalidField "gender" e.
Proof. intros H. unfold Patient_validate. rewrite H. field_error. Qed.

Lemma PatientUpdate_gender_error (kw : RawObject) (k : ErrKind) :
  check_opt_gender (raw_gender kw) = inl k ->
  exists e, PatientUpdate_validate kw = Raise e /\ InvalidField "gender" e.
Proof. intros H. unfold PatientUpdate_validate. rewrite H. field_error. Qed.

(** [Patient] is built exactly when the seven checks pass. *)
Lemma Patient_validate_Ok (kw : RawObject) (p : Patient) :
  Patient_validate kw = Ok p <->
  check_str (raw_id kw) = inr (id p) /\
  check_str (raw_name kw) = inr (name p) /\
  check_str (raw_city kw) = inr (city p) /\
  check_age (raw_age kw) = inr (age p) /\
  check_gender (raw_gender kw) = inr (gender p) /\
  check_positive (raw_height kw) = inr (height p) /\
  check_positive (raw_weight kw) = inr (weight p).
Proof.
  unfold Patient_validate. split.
  - destruct (check_str (raw_id kw)), (check_str (raw_name kw)),
      (check_str (raw_city kw)), (check_age (raw_age kw)),
      (check_gender (raw_gender kw)), (check_positive (raw_height kw)),
      (check_positive (raw_weight kw)); try discriminate.
    intros H. injection H as <-. cbn. repeat split.
  - intros (-> & -> & -> & -> & -> & -> & ->). now destruct p.
Qed.

(** ** Gender normalization *)

(** Claim C6.  [normalize_gender] turns a string into its capitalized
    form, the same letters with the first one not lower-case and no
    upper-case letter after it, and the [Literal] check sees that form.
    Normalizing twice is normalizing once, a canonical value is returned
    unchanged, every case variant of "male" becomes "Male", and a value
    whose capitalized form is none of Male, Female, Others is rejected by
    both models with an error naming the field gender. *)
Theorem gender_normalization :
  (forall s : string,
      all_chars is_ascii s = true ->
      normalize_gender (Value s) = Value (capitalize s) /\
      lower (capitalize s) = lower s /\
      match capitalize s with
      | EmptyString => s = EmptyString
      | String c r =>
          is_lower c = false /\
          all_chars (fun c' => negb (is_upper c')) r = true
      end /\
      normalize_gender (normalize_gender (Value s)) =
      normalize_gender (Value s)) /\
  (forall g : string,
      In g genders -> normalize_gender (Value g) = Value g) /\
  (forall s : string,
      lower s = "male" -> normalize_gender (Value s) = Value "Male") /\
  (forall (kw : RawObject) (g : string),
      raw_gender kw = Value g ->
      ~ In (capitalize g) genders ->
      (exists e, Patient_validate kw = Raise e /\ InvalidField "gender" e) /\
      (exists e,
          PatientUpdate_validate kw = Raise e /\ InvalidField "gender" e)) /\
  (forall (kw : RawObject) (p : Patient),
      Patient_validate kw = Ok p ->
      exists g : string,
        raw_gender kw = Value g /\
        gender p = capitalize g /\
        In (gender p) genders).
Proof.
  repeat apply conj.
  - intros s _. repeat apply conj.
    + reflexivity.
    + apply lower_capitalize.
    + destruct s as [|c s]; simpl; [reflexivity|].
      split; [apply upper_char_not_lower | apply lower_no_upper].
    + simpl. now rewrite capitalize_idem.
  - intros g Hg. simpl. now rewrite capitalize_gender.
  - intros s Hs. simpl. now rewrite <- capitalize_lower, Hs.
  - intros kw g Hg Hnot. apply in_literal_not_In in Hnot. split.
    + apply (Patient_gender_error kw literal_error).
      now rewrite Hg, check_gender_Value, Hnot.
    + apply (PatientUpdate_gender_error kw literal_error).
      now rewrite Hg, check_opt_gender_Value, Hnot.
  - intros kw p Hp. apply Patient_validate_Ok in Hp.
    destruct Hp as (_ & _ & _ & _ & Hg & _).
    destruct (raw_gender kw) as [| |g]; try discriminate.
    rewrite check_gender_Value in Hg.
    destruct (in_literal (capitalize g) genders) eqn:E; [|discriminate].
    injection Hg as Hg. exists g. repeat split.
    + now symmetry.
    + rewrite <- Hg. now apply in_literal_In.
Qed.

Lemma gender_normalization_witness :
  normalize_gender (Value "MALE") = Value "Male" /\
  normalize_gender (Value "Female") = Value "Female" /\
  lower (capitalize "oTHERS") = lower "oTHERS" /\
  exists e,
    Patient_validate
      (mkRaw (Value "P001") (Value "John Doe") (Value "New York") (Value 30)
             (Value "robot") (Value (dec 175 2)) (Value (dec 702 1)))
    = Raise e /\ InvalidField "gender" e.
Proof.
  destruct gender_normalization as (Hshape & Hcanon & Hmale & Hreject & _).
  repeat apply conj.
  - apply Hmale. reflexivity.
  - apply Hcanon. simpl. tauto.
  - apply (Hshape "oTHERS"). reflexivity.
  - apply (Hreject _ "robot").
    + reflexivity.
    + simpl. intros [H | [H | [H | []]]]; discriminate H.
Defined.

(** ** Names and cities *)

(** Claim C4, as the code has it.  An empty name and an empty city pass
    the validation of a full record. *)
Lemma blank_names_accepted :
  raw_name blank_names_body = Value "" /\
  raw_city blank_names_body = Value "" /\
  Patient_validate blank_names_body =
  Ok (mkPatient "P001" "" "" 30 "Male" (dec 175 2) (dec 702 1)) /\
  ~ (exists e : exn,
        Patient_validate blank_names_body = Raise e /\
        (InvalidField "name" e \/ InvalidField "city" e)).
Proof.
  repeat split. intros [e [H _]]. discriminate H.
Qed.

(** Claim C4, amended.  The validation of a full record requires name and
    city to be present and to be strings: a missing or null name or city
    is rejected with an error naming the field.  Every string is accepted,
    the empty one included: a body that is accepted stays accepted when
    its name and city are replaced by any two strings, and the patient
    built carries these two strings. *)
Theorem name_city_any_string (kw : RawObject) :
  (raw_name kw = Absent \/ raw_name kw = Null ->
   exists e, Patient_validate kw = Raise e /\ InvalidField "name" e) /\
  (raw_city kw = Absent \/ raw_city kw = Null ->
   exists e, Patient_validate kw = Raise e /\ InvalidField "city" e) /\
  (forall (p : Patient) (n c : string),
      Patient_validate kw = Ok p ->
      Patient_validate
        (mkRaw (raw_id kw) (Value n) (Value c) (raw_age kw) (raw_gender kw)
               (raw_height kw) (raw_weight kw))
      = Ok (mkPatient (id p) n c (age p) (gender p) (height p) (weight p))).
Proof.
  repeat apply conj.
  - intros [H | H].
    + apply (Patient_name_error kw missing). now rewrite H.
    + apply (Patient_name_error kw string_type). now rewrite H.
  - intros [H | H].
    + apply (Patient_city_error kw missing). now rewrite H.
    + apply (Patient_city_error kw string_type). now rewrite H.
  - intros p n c Hp. apply Patient_validate_Ok in Hp.
    apply Patient_validate_Ok. cbn. tauto.
Qed.

Lemma name_city_any_string_witness :
  Patient_validate
    (mkRaw (raw_id john_doe_body) (Value "") (Value "")
           (raw_age john_doe_body) (raw_gender john_doe_body)
           (raw_height john_doe_body) (raw_weight john_doe_body))
  = Ok (mkPatient "P001" "" "" 30 "Male" (dec 175 2) (dec 702 1)).
Proof.
  apply (proj2 (proj2 (name_city_any_string john_doe_body)) john_doe).
  reflexivity.
Defined.

(** ** The age of an update *)

(** Claim C5, at the failing input.  An update whose age is 150 passes
    the validation of [PatientUpdate], while a full record of age 150 is
    rejected; the handler then fails at the validation of the merged
    record and the file stays as it was. *)
Theorem update_age_150 :
  PatientUpdate_validate age_150_body = Ok age_150_update /\
  Patient_validate
    (mkRaw (Value "P001") (Value "John Doe") (Value "New York") (Value 150)
           (Value "male") (Value (dec 175 2)) (Value (dec 702 1)))
  = Raise (ValidationError [("age", less_than)]) /\
  update_patient "P001" age_150_update one_patient =
  (Raise (ValidationError [("age", less_than)]), one_patient).
Proof. repeat split. Qed.

(** ** The collection *)

Lemma dict_mem_get (k : string) (d : Collection) :
  dict_mem k d = match dict_get k d with Some _ => true | None => false end.
Proof.
  induction d as [|[k' v'] d IH]; simpl; [reflexivity|].
  now destruct (String.eqb k k').
Qed.

Lemma dict_get_None (k : string) (d : Collection) :
  dict_get k d = None <-> ~ In k (map fst d).
Proof.
  induction d as [|[k' v'] d IH]; simpl.
  - tauto.
  - destruct (String.eqb k k') eqn:E.
    + apply String.eqb_eq in E. subst. split; [discriminate | tauto].
    + apply String.eqb_neq in E. rewrite IH. split.
      * intros H [H' | H']; [now apply E | now apply H].
      * tauto.
Qed.

Lemma dict_get_set_same (k : string) (v : StoredRecord) (d : Collection) :
  dict_get k (dict_set k v d) = Some v.
Proof.
  induction d as [|[k' v'] d IH]; simpl.
  - now rewrite String.eqb_refl.
  - destruct (String.eqb k k') eqn:E; simpl; now rewrite E.
Qed.

Lemma dict_get_set_other (k k0 : string) (v : StoredRecord) (d : Collection) :
  k0 <> k -> dict_get k0 (dict_set k v d) = dict_get k0 d.
Proof.
  intros Hne. induction d as [|[k' v'] d IH]; simpl.
  - apply String.eqb_neq in Hne. now rewrite Hne.
  - destruct (String.eqb k k') eqn:E; simpl.
    + apply String.eqb_eq in E. subst k'.
      apply String.eqb_neq in Hne. now rewrite Hne.
    + now rewrite IH.
Qed.

Lemma dict_get_del_other (k k0 : string) (d : Collection) :
  k0 <> k -> dict_get k0 (dict_del k d) = dict_get k0 d.
Proof.
  intros Hne. induction d as [|[k' v'] d IH]; simpl; [reflexivity|].
  destruct (String.eqb k k') eqn:E; simpl.
  - apply String.eqb_eq in E. subst k'.
    apply String.eqb_neq in Hne. now rewrite Hne.
  - now rewrite IH.
Qed.

Lemma dict_get_del_same (k : string) (d : Collection) :
  dict_ok d -> dict_get k (dict_del k d) = None.
Proof.
  unfold dict_ok. induction d as [|[k' v'] d IH]; simpl; [reflexivity|].
  intros Hnd. inversion Hnd as [|? ? Hnotin Hnd']; subst.
  destruct (String.eqb k k') eqn:E; simpl.
  - apply String.eqb_eq in E. subst k'. now apply dict_get_None.
  - rewrite E. now apply IH.
Qed.

Lemma dict_set_new (k : string) (v : StoredRecord) (d : Collection) :
  dict_mem k d = false -> dict_set k v d = (d ++ [(k, v)])%list.
Proof.
  induction d as [|[k' v'] d IH]; simpl; [reflexivity|].
  destruct (String.eqb k k'); [discriminate|].
  intros H. now rewrite IH.
Qed.

Lemma dict_set_keys (k : string) (v : StoredRecord) (d : Collection) :
  dict_mem k d = true -> map fst (dict_set k v d) = map fst d.
Proof.
  induction d as [|[k' v'] d IH]; simpl; [discriminate|].
  destruct (String.eqb k k'); simpl; [reflexivity|].
  intros H. now rewrite IH.
Qed.

Lemma dict_set_same (k : string) (v : StoredRecord) (d : Collection) :
  dict_get k d = Some v -> dict_set k v d = d.
Proof.
  induction d as [|[k' v'] d IH]; simpl; [discriminate|].
  destruct (String.eqb k k').
  - intros H. injection H as ->. reflexivity.
  - intros H. now rewrite IH.
Qed.

Lemma dict_del_length (k : string) (d : Collection) :
  dict_mem k d = true -> S (List.length (dict_del k d)) = List.length d.
Proof.
  induction d as [|[k' v'] d IH]; simpl; [discriminate|].
  destruct (String.eqb k k'); simpl; [reflexivity|].
  intros H. now rewrite IH.
Qed.

(** ** Requests that fail *)

(** Claim C7.  Creating a patient whose ID is in the collection fails with
    DuplicateID, updating or deleting an ID that is not in the collection
    fails with RecordNotFound, and in each of these cases the file is left
    as it was. *)
Theorem failed_requests_keep_file (file : Collection) :
  (forall patient : Patient,
      dict_mem (id patient) file = true ->
      create_patient patient file = (Raise DuplicateID, file)) /\
  (forall (patient_id : string) (patient_update : PatientUpdate),
      dict_mem patient_id file = false ->
      update_patient patient_id patient_update file
      = (Raise RecordNotFound, file)) /\
  (forall patient_id : string,
      dict_mem patient_id file = false ->
      delete_patient patient_id file = (Raise RecordNotFound, file)).
Proof.
  repeat apply conj.
  - intros patient H. unfold create_patient, load_data. now rewrite H.
  - intros patient_id patient_update H.
    unfold update_patient, load_data.
    rewrite dict_mem_get in H.
    now destruct (dict_get patient_id file).
  - intros patient_id H. unfold delete_patient, load_data. now rewrite H.
Qed.

Lemma failed_requests_keep_file_witness :
  create_patient john_doe one_patient = (Raise DuplicateID, one_patient) /\
  update_patient "P002" empty_update one_patient
  = (Raise RecordNotFound, one_patient) /\
  delete_patient "P002" one_patient = (Raise RecordNotFound, one_patient).
Proof.
  destruct (failed_requests_keep_file one_patient) as (Hc & Hu & Hd).
  repeat apply conj.
  - apply Hc. reflexivity.
  - apply Hu. reflexivity.
  - apply Hd. reflexivity.
Defined.

(** ** The frame of a successful request *)

(** Claim C10.  A successful create adds one entry, under the new ID and
    at the end; a successful update replaces the entry of its ID and keeps
    the keys and their order; a successful delete removes the entry of its
    ID.  In all three the record stored under any other ID is the same
    before and after. *)
Theorem mutation_touches_one_entry
  (file file' : Collection) (response : Response) :
  dict_ok file ->
  (forall patient : Patient,
      create_patient patient file = (Ok response, file') ->
      dict_get (id patient) file = None /\
      (exists d : StoredRecord,
          model_dump patient = Ok d /\ file' = (file ++ [(id patient, d)])%list) /\
      (forall k : string,
          k <> id patient -> dict_get k file' = dict_get k file)) /\
  (forall (patient_id : string) (patient_update : PatientUpdate),
      update_patient patient_id patient_update file = (Ok response, file') ->
      (exists old new : StoredRecord,
          dict_get patient_id file = Some old /\
          dict_get patient_id file' = Some new) /\
      map fst file' = map fst file /\
      (forall k : string,
          k <> patient_id -> dict_get k file' = dict_get k file)) /\
  (forall patient_id : string,
      delete_patient patient_id file = (Ok response, file') ->
      dict_get patient_id file' = None /\
      S (List.length file') = List.length file /\
      (forall k : string,
          k <> patient_id -> dict_get k file' = dict_get k file)).
Proof.
  intros Hok. repeat apply conj.
  - intros patient. unfold create_patient, load_data, save_data.
    destruct (dict_mem (id patient) file) eqn:Hmem; [discriminate|].
    destruct (model_dump patient) as [d|e] eqn:Hd; [|discriminate].
    intros H. injection H as _ <-. repeat apply conj.
    + rewrite dict_mem_get in Hmem.
      now destruct (dict_get (id patient) file).
    + exists d. split; [reflexivity | now apply dict_set_new].
    + intros k Hk. now apply dict_get_set_other.
  - intros patient_id patient_update.
    unfold update_patient, load_data, save_data.
    destruct (dict_get patient_id file) as [old|] eqn:Hget; [|discriminate].
    destruct (_ <- Patient_validate _ ;; _) as [new|e]; [|discriminate].
    intros H. injection H as _ <-. repeat apply conj.
    + exists old, new. split; [reflexivity | apply dict_get_set_same].
    + apply dict_set_keys. rewrite dict_mem_get. now rewrite Hget.
    + intros k Hk. now apply dict_get_set_other.
  - intros patient_id. unfold delete_patient, load_data, save_data.
    destruct (dict_mem patient_id file) eqn:Hmem; [|discriminate].
    simpl. intros H. injection H as _ <-. repeat apply conj.
    + now apply dict_get_del_same.
    + now apply dict_del_length.
    + intros k Hk. now apply dict_get_del_other.
Qed.

Lemma mutation_touches_one_entry_witness :
  (dict_get "P002" one_patient = None /\
   (exists d : StoredRecord,
       model_dump (mkPatient "P002" "A" "Pune" 30 "Male" (dec 1 0) (dec 20 0)) = Ok d /\
       [("P001", john_doe_stored); ("P002", rec_A)]
       = (one_patient ++ [("P002", d)])%list) /\
   (forall k : string,
       k <> "P002" ->
       dict_get k [("P001", john_doe_stored); ("P002", rec_A)]
       = dict_get k one_patient)) /\
  ((exists old new : StoredRecord,
       dict_get "P001" one_patient = Some old /\
       dict_get "P001" one_patient = Some new) /\
   map fst one_patient = map fst one_patient /\
   (forall k : string,
       k <> "P001" -> dict_get k one_patient = dict_get k one_patient)) /\
  (dict_get "P001" [] = None /\
   S (List.length (@nil (string * StoredRecord))) = List.length one_patient /\
   (forall k : string,
       k <> "P001" -> dict_get k [] = dict_get k one_patient)).
Proof.
  assert (Hok : dict_ok one_patient).
  { unfold dict_ok. simpl. constructor; [simpl; tauto | constructor]. }
  split; [|split].
  - apply (proj1 (mutation_touches_one_entry
                    one_patient [("P001", john_doe_stored); ("P002", rec_A)]
                    (201, "Patient record created successfully") Hok)
             (mkPatient "P002" "A" "Pune" 30 "Male" (dec 1 0) (dec 20 0))).
    reflexivity.
  - apply (proj1 (proj2 (mutation_touches_one_entry
                           one_patient one_patient
                           (200, "Patient record updated successfully") Hok))
             "P001" empty_update).
    reflexivity.
  - apply (proj2 (proj2 (mutation_touches_one_entry
                           one_patient []
                           (200, "Patient record deleted successfully") Hok))
             "P001").
    reflexivity.
Defined.

(** ** The parameters of a sort *)

Lemma Patient_validate_raises (kw : RawObject) (e : exn) :
  Patient_validate kw = Raise e -> exists errors, e = ValidationError errors.
Proof.
  unfold Patient_validate.
  destruct (check_str (raw_id kw)), (check_str (raw_name kw)),
    (check_str (raw_city kw)), (check_age (raw_age kw)),
    (check_gender (raw_gender kw)), (check_positive (raw_height kw)),
    (check_positive (raw_weight kw));
    intros H; try discriminate; injection H as <-; eexists; reflexivity.
Qed.

Lemma bmi_raises (p : Patient) (e : exn) :
  bmi p = Raise e -> e = ZeroDivisionError \/ e = OverflowError.
Proof.
  unfold bmi, truediv.
  destruct (pow2 (height p)) as [square|e'] eqn:Hs; cbn [bind].
  - destruct (is_zero square); intros H; [|discriminate].
    injection H as <-. now left.
  - intros H. injection H as <-. right.
    unfold pow2 in Hs. destruct (height p); try discriminate.
    destruct (is_inf _); [|discriminate]. now injection Hs.
Qed.

Lemma model_dump_raises (p : Patient) (e : exn) :
  model_dump p = Raise e -> e = ZeroDivisionError \/ e = OverflowError.
Proof.
  unfold model_dump, verdict.
  destruct (bmi p) as [b|e'] eqn:Hb; cbn [bind]; [discriminate|].
  intros H. injection H as <-. now apply (bmi_raises p).
Qed.

Lemma map_result_raises {A B : Type} (f : A -> result B) (l : list A)
  (e : exn) :
  map_result f l = Raise e -> exists a, In a l /\ f a = Raise e.
Proof.
  induction l as [|a l IH]; simpl; [discriminate|].
  destruct (f a) as [b|e'] eqn:Ha; simpl.
  - destruct (map_result f l) as [bs|e'']; simpl; [discriminate|].
    intros H. injection H as ->.
    destruct (IH eq_refl) as [a' [Hin Hf]]. exists a'. tauto.
  - intros H. injection H as ->. exists a. tauto.
Qed.

(** Once both parameters are accepted, neither parameter error can be
    raised. *)
Lemma sort_patients_accepted (sort_by order : string) (file : Collection) :
  In sort_by valid_fields -> In order ["asc"; "desc"] ->
  sort_patients sort_by order file <> Raise InvalidSortField /\
  sort_patients sort_by order file <> Raise InvalidSortOrder.
Proof.
  intros Hs Ho. apply in_literal_In in Hs, Ho.
  unfold sort_patients. rewrite Hs, Ho. cbn [negb].
  destruct (map_result _ (load_data file)) as [patients|e] eqn:Hp; simpl.
  - destruct (map_result model_dump patients) as [dumped|e] eqn:Hd; simpl.
    + split; discriminate.
    + apply map_result_raises in Hd. destruct Hd as [p [_ Hd]].
      apply model_dump_raises in Hd.
      destruct Hd as [-> | ->]; split; discriminate.
  - apply map_result_raises in Hp. destruct Hp as [item [_ Hp]].
    apply Patient_validate_raises in Hp. destruct Hp as [errors ->].
    split; discriminate.
Qed.

(** Claim C9.  The sort fails with InvalidSortField for every [sort_by]
    other than height, weight and bmi, whatever the order, and, [sort_by]
    being accepted, with InvalidSortOrder for every [order] other than asc
    and desc.  It gets past the two checks exactly when both parameters are
    accepted: one of the two errors is raised if and only if a parameter
    is rejected. *)
Theorem sort_parameter_checks
  (sort_by order : string) (file : Collection) :
  (~ In sort_by valid_fields ->
   sort_patients sort_by order file = Raise InvalidSortField) /\
  (In sort_by valid_fields -> ~ In order ["asc"; "desc"] ->
   sort_patients sort_by order file = Raise InvalidSortOrder) /\
  (In sort_by valid_fields /\ In order ["asc"; "desc"] <->
   sort_patients sort_by order file <> Raise InvalidSortField /\
   sort_patients sort_by order file <> Raise InvalidSortOrder).
Proof.
  assert (H1 : ~ In sort_by valid_fields ->
               sort_patients sort_by order file = Raise InvalidSortField).
  { intros Hs. apply in_literal_not_In in Hs.
    unfold sort_patients. now rewrite Hs. }
  assert (H2 : In sort_by valid_fields -> ~ In order ["asc"; "desc"] ->
               sort_patients sort_by order file = Raise InvalidSortOrder).
  { intros Hs Ho. apply in_literal_In in Hs. apply in_literal_not_In in Ho.
    unfold sort_patients. now rewrite Hs, Ho. }
  repeat apply conj; try assumption.
  - intros [Hs Ho]. now apply sort_patients_accepted.
  - intros [Hf Ho].
    destruct (in_literal sort_by valid_fields) eqn:Es.
    + apply in_literal_In in Es. split; [assumption|].
      destruct (in_literal order ["asc"; "desc"]) eqn:Eo.
      * now apply in_literal_In in Eo.
      * apply in_literal_not_In in Eo. exfalso. apply Ho. now apply H2.
    + apply in_literal_not_In in Es. exfalso. apply Hf. now apply H1.
Qed.

Lemma sort_parameter_checks_witness :
  sort_patients "age" "asc" abc = Raise InvalidSortField /\
  sort_patients "bmi" "up" abc = Raise InvalidSortOrder /\
  sort_patients "bmi" "desc" abc <> Raise InvalidSortField /\
  sort_patients "bmi" "desc" abc <> Raise InvalidSortOrder.
Proof.
  repeat apply conj.
  - apply (proj1 (sort_parameter_checks "age" "asc" abc)).
    simpl. intros [H | [H | [H | []]]]; discriminate H.
  - apply (proj1 (proj2 (sort_parameter_checks "bmi" "up" abc))).
    + simpl. tauto.
    + simpl. intros [H | [H | []]]; discriminate H.
  - apply (proj2 (proj2 (sort_parameter_checks "bmi" "desc" abc))).
    simpl. tauto.
  - apply (proj2 (proj2 (sort_parameter_checks "bmi" "desc" abc))).
    simpl. tauto.
Defined.


(** ** Sorting by a key *)

Section SortedFacts.
Context {A : Type}.
Variable key : A -> float.

Lemma insert_perm (x : A) (l : list A) :
  Permutation (insert key x l) (x :: l).
Proof.
  induction l as [|y l IH]; simpl; [reflexivity|].
  destruct (flt (key y) (key x)); [|reflexivity].
  rewrite IH. apply perm_swap.
Qed.

Lemma stable_sort_perm (l : list A) : Permutation (stable_sort key l) l.
Proof.
  induction l as [|x l IH]; simpl; [reflexivity|].
  rewrite insert_perm. now constructor.
Qed.








Lemma sorted_perm (l : list A) (reverse : bool) :
  Permutation (sorted key l reverse) l.
Proof.
  destruct reverse; simpl.
  - rewrite <- Permutation_rev, stable_sort_perm.
    symmetry. apply Permutation_rev.
  - apply stable_sort_perm.
Qed.



End SortedFacts.

(** ** Valid values pass the checks *)

Lemma check_age_ok (n : Z) : 0 < n < 110 -> check_age (Value n) = inr n.
Proof.
  intros [H0 H110]. simpl.
  destruct (Z.leb_spec n 0); [lia|].
  destruct (Z.leb_spec 110 n); [lia | reflexivity].
Qed.

Lemma check_gender_ok (g : string) :
  In g genders -> check_gender (Value g) = inr g.
Proof.
  intros Hg. rewrite check_gender_Value, (capitalize_gender g Hg).
  apply in_literal_In in Hg. now rewrite Hg.
Qed.

Lemma check_positive_ok (x : float) :
  flt fzero x = true -> check_positive (Value x) = inr x.
Proof. intros Hx. simpl. now rewrite Hx. Qed.

(** The dump of a patient is its fields with its bmi and the verdict of
    that bmi, and fails exactly as the bmi does. *)
Lemma model_dump_bmi (p : Patient) :
  model_dump p =
  b <- bmi p ;;
  Ok (mkStored (name p) (city p) (age p) (gender p) (height p) (weight p)
               b (verdict_of b)).
Proof.
  unfold model_dump, verdict. now destruct (bmi p).
Qed.

Lemma model_dump_Ok (p : Patient) (d : StoredRecord) :
  model_dump p = Ok d <->
  exists b : float,
    bmi p = Ok b /\
    d = mkStored (name p) (city p) (age p) (gender p) (height p) (weight p)
                 b (verdict_of b).
Proof.
  rewrite model_dump_bmi. destruct (bmi p) as [b|e]; cbn [bind]; split.
  - intros H. injection H as <-. now exists b.
  - intros (b' & Hb & ->). now injection Hb as ->.
  - discriminate.
  - intros (b' & Hb & _). discriminate Hb.
Qed.

(** A record whose stored fields are valid is read back as the patient
    it describes. *)
Lemma Patient_validate_stored (pid : string) (r : StoredRecord) :
  stored_fields_ok r ->
  Patient_validate (kwargs_of pid r) = Ok (patient_of pid r).
Proof.
  intros (Hage & Hg & Hh & Hw). apply Patient_validate_Ok. cbn.
  repeat apply conj; try reflexivity.
  - now apply check_age_ok.
  - now apply check_gender_ok.
  - now rewrite Hh.
  - now rewrite Hw.
Qed.

Lemma wf_stored_fields (r : StoredRecord) :
  wf_record r -> stored_fields_ok r.
Proof. intros (Ha & Hg & Hh & Hw & _). repeat split; tauto. Qed.

(** A well-formed record is dumped as itself. *)
Lemma model_dump_wf (pid : string) (r : StoredRecord) :
  wf_record r -> model_dump (patient_of pid r) = Ok r.
Proof.
  intros (_ & _ & _ & _ & Hb & Hv).
  apply model_dump_Ok. exists (s_bmi r). split.
  - rewrite bmi_derived. exact Hb.
  - cbn. rewrite <- Hv. now destruct r.
Qed.

Lemma materialize_wf (item : string * StoredRecord) :
  wf_record (snd item) -> materialize item = Ok (snd item).
Proof.
  intros Hwf. unfold materialize.
  rewrite (Patient_validate_stored _ _ (wf_stored_fields _ Hwf)).
  cbn [bind]. now apply model_dump_wf.
Qed.

Lemma map_result_Ok {A B : Type} (f : A -> result B) (g : A -> B)
  (l : list A) :
  Forall (fun a => f a = Ok (g a)) l -> map_result f l = Ok (map g l).
Proof.
  induction 1 as [|a l Ha _ IH]; simpl; [reflexivity|].
  now rewrite Ha, IH.
Qed.

Lemma map_result_Forall2 {A B : Type} (f : A -> result B) (l : list A)
  (bs : list B) :
  map_result f l = Ok bs <-> Forall2 (fun a b => f a = Ok b) l bs.
Proof.
  revert bs. induction l as [|a l IH]; simpl; intros bs.
  - split.
    + intros H. injection H as <-. constructor.
    + intros H. inversion H. reflexivity.
  - split.
    + destruct (f a) as [b|e] eqn:Ha; simpl; [|discriminate].
      destruct (map_result f l) as [bs'|e] eqn:Hl; simpl; [|discriminate].
      intros H. injection H as <-.
      constructor; [assumption | now apply IH].
    + intros H. inversion H as [|? b ? bs' Ha Hl]; subst.
      rewrite Ha. simpl. apply IH in Hl. now rewrite Hl.
Qed.

(** The two loops of the sort, one after the other, succeed exactly when
    every item can be materialized, and with the same records. *)
Lemma map_result_materialize (file : Collection)
  (dumped : list StoredRecord) :
  map_result materialize file = Ok dumped <->
  exists patients : list Patient,
    map_result
      (fun item => Patient_validate (kwargs_of (fst item) (snd item))) file
    = Ok patients /\
    map_result model_dump patients = Ok dumped.
Proof.
  rewrite map_result_Forall2. split.
  - induction 1 as [|item d file dumped Hm _ (ps & Hps & Hd)].
    + now exists [].
    + unfold materialize in Hm.
      destruct (Patient_validate (kwargs_of (fst item) (snd item)))
        as [p|e] eqn:Hp; [|discriminate].
      cbn [bind] in Hm. exists (p :: ps). cbn [map_result].
      now rewrite Hp, Hps, Hm, Hd.
  - intros (ps & Hps & Hd).
    apply map_result_Forall2 in Hps, Hd. revert dumped Hd.
    induction Hps as [|item p file ps Hp _ IH]; intros dumped Hd.
    + inversion Hd. constructor.
    + inversion Hd as [|? d ? ds Hdump Hrest]; subst.
      constructor; [|now apply IH].
      unfold materialize. now rewrite Hp.
Qed.

Lemma sort_patients_materialize (sort_by order : string)
  (file : Collection) (dumped : list StoredRecord) :
  In sort_by valid_fields -> In order ["asc"; "desc"] ->
  map_result materialize file = Ok dumped ->
  sort_patients sort_by order file
  = Ok (sorted (sort_key sort_by) dumped
               (if String.eqb order "desc" then true else false)).
Proof.
  intros Hs Ho Hm. apply in_literal_In in Hs, Ho.
  apply map_result_materialize in Hm. destruct Hm as (ps & Hp & Hd).
  unfold sort_patients, load_data. rewrite Hs, Ho. cbn [negb].
  rewrite Hp. cbn [bind]. rewrite Hd. reflexivity.
Qed.

(** ** The sort *)




(** ** The merge of an update *)

Lemma check_str_merged (old : string) (upd : jfield string) :
  supplied_str upd ->
  check_str (overwrite (Value old) upd) = inr (merged upd old).
Proof. unfold supplied_str. destruct upd; simpl; congruence. Qed.

Lemma check_age_merged (old : Z) (upd : jfield Z) :
  0 < old < 110 -> supplied_age upd ->
  check_age (overwrite (Value old) upd) = inr (merged upd old).
Proof.
  intros Hold. destruct upd as [| |n]; cbn [supplied_age overwrite merged].
  - intros _. now apply check_age_ok.
  - contradiction.
  - apply check_age_ok.
Qed.

Lemma check_gender_merged (old : string) (upd : jfield string) :
  In old genders -> supplied_gender upd ->
  check_gender (overwrite (Value old) upd) = inr (merged upd old).
Proof.
  intros Hold. destruct upd as [| |g]; cbn [supplied_gender overwrite merged].
  - intros _. now apply check_gender_ok.
  - contradiction.
  - apply check_gender_ok.
Qed.

Lemma check_positive_merged (old : float) (upd : jfield float) :
  flt fzero old = true -> supplied_positive upd ->
  check_positive (overwrite (Value old) upd) = inr (merged upd old).
Proof.
  intros Hold. destruct upd as [| |x]; cbn [supplied_positive overwrite merged].
  - intros _. now apply check_positive_ok.
  - contradiction.
  - apply check_positive_ok.
Qed.

Lemma merged_gender_canonical (old : string) (upd : jfield string) :
  In old genders -> supplied_gender upd ->
  capitalize (merged upd old) = merged upd old.
Proof.
  intros Hold. destruct upd as [| |g]; cbn [supplied_gender merged];
    intros Hg; apply capitalize_gender; tauto.
Qed.

Lemma check_str_overwrite (old v : string) (upd : jfield string) :
  check_str (overwrite (Value old) upd) = inr v -> v = merged upd old.
Proof. destruct upd; simpl; congruence. Qed.

Lemma check_age_overwrite (old v : Z) (upd : jfield Z) :
  check_age (overwrite (Value old) upd) = inr v -> v = merged upd old.
Proof.
  destruct upd as [| |n]; cbn [overwrite merged]; try discriminate.
  - simpl. destruct (old <=? 0); [discriminate|].
    destruct (110 <=? old); congruence.
  - simpl. destruct (n <=? 0); [discriminate|].
    destruct (110 <=? n); congruence.
Qed.

(** The gender that passes the check is the capitalized one. *)
Lemma check_gender_overwrite (old v : string) (upd : jfield string) :
  check_gender (overwrite (Value old) upd) = inr v ->
  v = capitalize (merged upd old).
Proof.
  destruct upd as [| |g]; cbn [overwrite merged]; try discriminate;
    rewrite check_gender_Value;
    match goal with
    | |- context [in_literal ?a ?b] => destruct (in_literal a b)
    end; congruence.
Qed.

Lemma check_positive_overwrite (old v : float) (upd : jfield float) :
  check_positive (overwrite (Value old) upd) = inr v -> v = merged upd old.
Proof.
  destruct upd as [| |x]; cbn [overwrite merged]; try discriminate; simpl.
  - destruct (flt fzero old); congruence.
  - destruct (flt fzero x); congruence.
Qed.

(** The patient a merge is validated as, whenever it is. *)
Lemma merge_validates_as (patient_id : string) (old : StoredRecord)
  (u : PatientUpdate) (p : Patient) :
  Patient_validate (merged_kwargs patient_id old u) = Ok p ->
  p = mkPatient patient_id
        (merged (u_name u) (s_name old)) (merged (u_city u) (s_city old))
        (merged (u_age u) (s_age old))
        (capitalize (merged (u_gender u) (s_gender old)))
        (merged (u_height u) (s_height old))
        (merged (u_weight u) (s_weight old)).
Proof.
  intros Hp. apply Patient_validate_Ok in Hp.
  cbn [merged_kwargs kwargs_of raw_id raw_name raw_city raw_age raw_gender
       raw_height raw_weight] in Hp.
  destruct Hp as (Hid & Hn & Hc & Ha & Hg & Hh & Hw).
  apply check_str_overwrite in Hn, Hc.
  apply check_age_overwrite in Ha.
  apply check_gender_overwrite in Hg.
  apply check_positive_overwrite in Hh, Hw.
  simpl in Hid. injection Hid as Hid.
  destruct p; cbn in *. congruence.
Qed.

(** The merge of a record with valid stored fields and an update with
    valid values passes the validation of the full record. *)
Lemma merge_validates (patient_id : string) (old : StoredRecord)
  (u : PatientUpdate) :
  stored_fields_ok old -> supplied_ok u ->
  Patient_validate (merged_kwargs patient_id old u)
  = Ok (mkPatient patient_id
          (merged (u_name u) (s_name old)) (merged (u_city u) (s_city old))
          (merged (u_age u) (s_age old))
          (capitalize (merged (u_gender u) (s_gender old)))
          (merged (u_height u) (s_height old))
          (merged (u_weight u) (s_weight old))).
Proof.
  intros (Hage & Hg & Hh & Hw) (Un & Uc & Ua & Ug & Uh & Uw).
  apply Patient_validate_Ok.
  cbn [merged_kwargs kwargs_of raw_id raw_name raw_city raw_age raw_gender
       raw_height raw_weight id name city age gender height weight].
  repeat apply conj.
  - reflexivity.
  - now apply check_str_merged.
  - now apply check_str_merged.
  - now apply check_age_merged.
  - rewrite (merged_gender_canonical _ _ Hg Ug).
    now apply check_gender_merged.
  - now apply check_positive_merged.
  - now apply check_positive_merged.
Qed.

(** What a merge stores, whenever it stores a record. *)
Lemma merge_dumps_merged_record (patient_id : string) (old : StoredRecord)
  (u : PatientUpdate) (d : StoredRecord) :
  (p <- Patient_validate (merged_kwargs patient_id old u) ;; model_dump p)
  = Ok d ->
  exists b : float,
    derived_bmi (merged (u_height u) (s_height old))
                (merged (u_weight u) (s_weight old)) = Ok b /\
    d = merged_record old u b.
Proof.
  destruct (Patient_validate (merged_kwargs patient_id old u)) as [p|e] eqn:Hp;
    [|discriminate].
  cbn [bind]. apply merge_validates_as in Hp. subst p.
  intros Hd. apply model_dump_Ok in Hd. destruct Hd as (b & Hb & ->).
  exists b. split; [|reflexivity].
  rewrite bmi_derived in Hb. exact Hb.
Qed.

(** And it does store that record when the stored fields and the
    supplied values are valid and the bmi can be computed. *)
Lemma merge_revalidates (patient_id : string) (old : StoredRecord)
  (u : PatientUpdate) (b : float) :
  stored_fields_ok old -> supplied_ok u ->
  derived_bmi (merged (u_height u) (s_height old))
              (merged (u_weight u) (s_weight old)) = Ok b ->
  (p <- Patient_validate (merged_kwargs patient_id old u) ;; model_dump p)
  = Ok (merged_record old u b).
Proof.
  intros Hold Hu Hb. rewrite (merge_validates _ _ _ Hold Hu). cbn [bind].
  apply model_dump_Ok. exists b. split; [|reflexivity].
  rewrite bmi_derived. exact Hb.
Qed.

Lemma supplied_ok_empty : supplied_ok empty_update.
Proof. repeat split; simpl; try tauto; discriminate. Qed.

Lemma merged_record_empty (old : StoredRecord) :
  wf_record old -> merged_record old empty_update (s_bmi old) = old.
Proof.
  intros (_ & Hg & _ & _ & _ & Hv).
  unfold merged_record. cbn [empty_update u_name u_city u_age u_gender
                               u_height u_weight merged].
  rewrite (capitalize_gender _ Hg), <- Hv. now destruct old.
Qed.

(** A PUT request that goes through stores the merged record. *)
Lemma update_patient_Ok (patient_id : string) (old : StoredRecord)
  (u : PatientUpdate) (file : Collection) (response : Response)
  (file' : Collection) :
  dict_get patient_id file = Some old ->
  update_patient patient_id u file = (Ok response, file') ->
  exists b : float,
    derived_bmi (merged (u_height u) (s_height old))
                (merged (u_weight u) (s_weight old)) = Ok b /\
    response = (200, "Patient record updated successfully") /\
    file' = dict_set patient_id (merged_record old u b) file.
Proof.
  intros Hget. unfold update_patient, load_data, save_data. rewrite Hget.
  destruct (_ <- Patient_validate _ ;; _) as [d|e] eqn:Hd; [|discriminate].
  intros H. injection H as <- <-.
  apply merge_dumps_merged_record in Hd. destruct Hd as (b & Hb & ->).
  now exists b.
Qed.

Lemma update_patient_runs (patient_id : string) (old : StoredRecord)
  (u : PatientUpdate) (file : Collection) (b : float) :
  dict_get patient_id file = Some old ->
  stored_fields_ok old -> supplied_ok u ->
  derived_bmi (merged (u_height u) (s_height old))
              (merged (u_weight u) (s_weight old)) = Ok b ->
  update_patient patient_id u file
  = (Ok (200, "Patient record updated successfully"),
     dict_set patient_id (merged_record old u b) file).
Proof.
  intros Hget Hold Hu Hb.
  unfold update_patient, load_data, save_data. rewrite Hget.
  now rewrite (merge_revalidates patient_id old u b Hold Hu Hb).
Qed.

(** Claim C3, as the code has it.  The one record of the collection has
    the gender male and computed fields that are out of date.  An update
    that supplies no field is accepted and stores a record that differs
    from the original: the gender is capitalized, bmi and verdict are
    computed anew. *)
Lemma empty_update_rewrites_stale_record :
  dict_get "S" stale_collection = Some stale_record /\
  update_patient "S" empty_update stale_collection
  = (Ok (200, "Patient record updated successfully"),
     [("S", refreshed_record)]) /\
  refreshed_record <> stale_record /\
  s_gender refreshed_record <> s_gender stale_record.
Proof.
  repeat apply conj.
  - reflexivity.
  - vm_compute. reflexivity.
  - discriminate.
  - discriminate.
Qed.

(** Claim C3, amended.  Take an existing record.  Whenever the update
    operation succeeds, the record stored under the same ID has each of
    name, city, age, height and weight equal to the update's value when
    the update supplies one and to the existing value otherwise, the
    gender the capitalized form of the value so chosen, the bmi derived
    from the merged height and weight and the verdict of that bmi.  The
    operation succeeds when the stored fields of the existing record and
    the supplied values satisfy the constraints of the full record and
    the bmi of the merged height and weight can be computed; the gender
    stored is then the chosen value itself.  On a well-formed record an
    update that supplies no field stores the original record, so the
    file is unchanged; on a record whose bmi and verdict are those of its
    height and weight, an update that goes through and supplies neither
    height nor weight, one that changes only the name for instance,
    leaves bmi and verdict as they were. *)
Theorem update_patient_merges
  (patient_id : string) (old : StoredRecord) (u : PatientUpdate)
  (file : Collection) :
  dict_get patient_id file = Some old ->
  (forall (response : Response) (file' : Collection),
      update_patient patient_id u file = (Ok response, file') ->
      exists new : StoredRecord,
        file' = dict_set patient_id new file /\
        dict_get patient_id file' = Some new /\
        s_name new = merged (u_name u) (s_name old) /\
        s_city new = merged (u_city u) (s_city old) /\
        s_age new = merged (u_age u) (s_age old) /\
        s_gender new = capitalize (merged (u_gender u) (s_gender old)) /\
        s_height new = merged (u_height u) (s_height old) /\
        s_weight new = merged (u_weight u) (s_weight old) /\
        derived_bmi (s_height new) (s_weight new) = Ok (s_bmi new) /\
        s_verdict new = verdict_of (s_bmi new) /\
        (u_height u = Absent -> u_weight u = Absent ->
         derived_bmi (s_height old) (s_weight old) = Ok (s_bmi old) ->
         s_verdict old = verdict_of (s_bmi old) ->
         s_bmi new = s_bmi old /\ s_verdict new = s_verdict old)) /\
  (forall b : float,
      stored_fields_ok old -> supplied_ok u ->
      derived_bmi (merged (u_height u) (s_height old))
                  (merged (u_weight u) (s_weight old)) = Ok b ->
      exists new : StoredRecord,
        update_patient patient_id u file
        = (Ok (200, "Patient record updated successfully"),
           dict_set patient_id new file) /\
        dict_get patient_id (dict_set patient_id new file) = Some new /\
        s_gender new = merged (u_gender u) (s_gender old) /\
        s_bmi new = b) /\
  (wf_record old -> u = empty_update ->
   update_patient patient_id u file
   = (Ok (200, "Patient record updated successfully"), file)).
Proof.
  intros Hget.
  assert (Hmem : dict_mem patient_id file = true).
  { rewrite dict_mem_get, Hget. reflexivity. }
  split; [|split].
  - intros response file' Hrun.
    destruct (update_patient_Ok _ _ _ _ _ _ Hget Hrun) as (b & Hb & _ & ->).
    exists (merged_record old u b).
    split; [reflexivity|].
    split; [now apply dict_get_set_same|].
    cbn [merged_record s_name s_city s_age s_gender s_height s_weight s_bmi
         s_verdict].
    repeat match goal with |- _ /\ _ => split end; try reflexivity.
    + exact Hb.
    + intros Hh Hw Hold Hv. rewrite Hh, Hw in Hb. cbn [merged] in Hb.
      rewrite Hold in Hb. injection Hb as <-. now rewrite Hv.
  - intros b Hold Hu Hb. exists (merged_record old u b).
    split; [now apply update_patient_runs|].
    split; [now apply dict_get_set_same|].
    split; [|reflexivity].
    destruct Hold as (_ & Hg & _), Hu as (_ & _ & _ & Ug & _).
    now apply merged_gender_canonical.
  - intros Hwf ->.
    rewrite (update_patient_runs patient_id old empty_update file (s_bmi old)
               Hget (wf_stored_fields _ Hwf) supplied_ok_empty).
    + rewrite (merged_record_empty _ Hwf).
      now rewrite (dict_set_same _ _ _ Hget).
    + cbn [empty_update u_height u_weight merged]. apply Hwf.
Qed.

Lemma update_patient_merges_witness :
  exists new : StoredRecord,
    update_patient "P001"
      (mkUpdate (Value "Jane Doe") Absent Absent Absent Absent Absent)
      one_patient
    = (Ok (200, "Patient record updated successfully"),
       dict_set "P001" new one_patient) /\
    dict_get "P001" (dict_set "P001" new one_patient) = Some new /\
    s_gender new = "Male" /\
    s_bmi new = dec 2292 2.
Proof.
  apply (proj1 (proj2
           (update_patient_merges "P001" john_doe_stored
              (mkUpdate (Value "Jane Doe") Absent Absent Absent Absent Absent)
              one_patient eq_refl))
           (dec 2292 2)).
  - repeat split; simpl; try lia; try tauto.
  - repeat split; simpl; try tauto; discriminate.
  - vm_compute. reflexivity.
Defined.

(** * Further properties *)

(** ** Reading the collection *)

Lemma dict_get_In (k : string) (v : StoredRecord) (d : Collection) :
  dict_ok d -> (dict_get k d = Some v <-> In (k, v) d).
Proof.
  unfold dict_ok. induction d as [|[k' v'] d IH]; simpl; intros Hnd.
  - split; [discriminate | tauto].
  - inversion Hnd as [|? ? Hnotin Hnd']; subst.
    destruct (String.eqb k k') eqn:E.
    + apply String.eqb_eq in E. subst k'. split.
      * intros H. injection H as ->. now left.
      * intros [H | H]; [congruence|].
        exfalso. apply Hnotin. change k with (fst (k, v)). now apply in_map.
    + apply String.eqb_neq in E. rewrite (IH Hnd'). split.
      * tauto.
      * intros [H | H]; [congruence | assumption].
Qed.

(** Property X1.
    [GET /patient/{patient_id}] answers with a record exactly for the
    pairs of ID and record that [GET /view] lists, and with
    RecordNotFound exactly for the IDs that are not keys of the
    collection. *)
Theorem view_patient_lists_view (file : Collection) :
  dict_ok file ->
  (forall (patient_id : string) (pdata : StoredRecord),
      view_patient patient_id file = Ok pdata <->
      In (patient_id, pdata) (view file)) /\
  (forall patient_id : string,
      view_patient patient_id file = Raise RecordNotFound <->
      ~ In patient_id (map fst (view file))).
Proof.
  intros Hok. unfold view_patient, view, load_data. split.
  - intros patient_id pdata. rewrite <- (dict_get_In _ _ _ Hok).
    destruct (dict_get patient_id file); split; intros H;
      try discriminate; congruence.
  - intros patient_id. rewrite <- dict_get_None.
    destruct (dict_get patient_id file); split; intros H;
      try discriminate; reflexivity.
Qed.

Lemma view_patient_lists_view_witness :
  view_patient "P001" one_patient = Ok john_doe_stored /\
  view_patient "P002" one_patient = Raise RecordNotFound.
Proof.
  assert (Hok : dict_ok one_patient).
  { unfold dict_ok. simpl. constructor; [simpl; tauto | constructor]. }
  destruct (view_patient_lists_view one_patient Hok) as [Hin Hout].
  split.
  - apply Hin. simpl. tauto.
  - apply Hout. simpl. intros [H | []]. discriminate H.
Defined.

(** ** Requests one after the other *)

Lemma dict_del_new (k : string) (v : StoredRecord) (d : Collection) :
  dict_mem k d = false -> dict_del k (d ++ [(k, v)])%list = d.
Proof.
  induction d as [|[k' v'] d IH]; simpl.
  - now rewrite String.eqb_refl.
  - destruct (String.eqb k k'); [discriminate|].
    intros H. now rewrite IH.
Qed.

Lemma dict_mem_set (k : string) (v : StoredRecord) (d : Collection) :
  dict_mem k (dict_set k v d) = true.
Proof. rewrite dict_mem_get. now rewrite dict_get_set_same. Qed.

(** Property X2.
    A patient that was created can be read back, cannot be created a
    second time, and deleting it gives back the file as it was before
    the creation. *)
Theorem create_then_delete
  (patient : Patient) (file file' : Collection) (response : Response) :
  create_patient patient file = (Ok response, file') ->
  (exists d : StoredRecord,
      model_dump patient = Ok d /\
      view_patient (id patient) file' = Ok d) /\
  create_patient patient file' = (Raise DuplicateID, file') /\
  delete_patient (id patient) file'
  = (Ok (200, "Patient record deleted successfully"), file).
Proof.
  unfold create_patient, load_data, save_data.
  destruct (dict_mem (id patient) file) eqn:Hmem; [discriminate|].
  destruct (model_dump patient) as [d|e] eqn:Hd; [|discriminate].
  intros H. injection H as _ <-. repeat apply conj.
  - exists d. split; [reflexivity|].
    unfold view_patient, load_data. now rewrite dict_get_set_same.
  - now rewrite dict_mem_set.
  - unfold delete_patient, load_data, save_data.
    rewrite dict_mem_set. cbn [negb].
    now rewrite (dict_set_new _ _ _ Hmem), (dict_del_new _ _ _ Hmem).
Qed.

Lemma create_then_delete_witness :
  (exists d : StoredRecord,
      model_dump john_doe = Ok d /\
      view_patient "P001" one_patient = Ok d) /\
  create_patient john_doe one_patient = (Raise DuplicateID, one_patient) /\
  delete_patient "P001" one_patient
  = (Ok (200, "Patient record deleted successfully"), []).
Proof.
  apply (create_then_delete john_doe [] one_patient
           (201, "Patient record created successfully")).
  vm_compute. reflexivity.
Defined.

(** Property X3.
    A patient that was deleted cannot be read, updated or deleted any
    more: the three requests fail with RecordNotFound. *)
Theorem delete_then_not_found
  (patient_id : string) (file file' : Collection) (response : Response) :
  dict_ok file ->
  delete_patient patient_id file = (Ok response, file') ->
  view_patient patient_id file' = Raise RecordNotFound /\
  (forall patient_update : PatientUpdate,
      update_patient patient_id patient_update file'
      = (Raise RecordNotFound, file')) /\
  delete_patient patient_id file' = (Raise RecordNotFound, file').
Proof.
  intros Hok. unfold delete_patient at 1. unfold load_data, save_data.
  destruct (dict_mem patient_id file) eqn:Hmem; [|discriminate].
  cbn [negb]. intros H. injection H as _ <-.
  pose proof (dict_get_del_same patient_id file Hok) as Hget.
  repeat apply conj.
  - unfold view_patient, load_data. now rewrite Hget.
  - intros patient_update. unfold update_patient, load_data.
    now rewrite Hget.
  - unfold delete_patient, load_data. rewrite dict_mem_get, Hget.
    reflexivity.
Qed.

Lemma delete_then_not_found_witness :
  view_patient "P001" [] = Raise RecordNotFound /\
  (forall patient_update : PatientUpdate,
      update_patient "P001" patient_update []
      = (Raise RecordNotFound, [])) /\
  delete_patient "P001" [] = (Raise RecordNotFound, []).
Proof.
  apply (delete_then_not_found "P001" one_patient []
           (200, "Patient record deleted successfully")).
  - unfold dict_ok. simpl. constructor; [simpl; tauto | constructor].
  - reflexivity.
Defined.

(** Property X4.
    A request that raises an exception, whichever it is, leaves the file
    as it was. *)
Theorem failed_request_keeps_file
  (r : request) (file file' : Collection) (e : exn) :
  handle r file = (Raise e, file') -> file' = file.
Proof.
  destruct r as [body | patient_id body | patient_id]; cbn [handle].
  - destruct (Patient_validate body) as [patient|e'].
    + unfold create_patient, load_data, save_data.
      destruct (dict_mem (id patient) file); [congruence|].
      destruct (model_dump patient); [discriminate | congruence].
    + congruence.
  - destruct (PatientUpdate_validate body) as [patient_update|e'].
    + unfold update_patient, load_data, save_data.
      destruct (dict_get patient_id file); [|congruence].
      destruct (_ <- Patient_validate _ ;; _); [discriminate | congruence].
    + congruence.
  - unfold delete_patient, load_data, save_data.
    destruct (dict_mem patient_id file); cbn [negb];
      [discriminate | congruence].
Qed.

Lemma failed_request_keeps_file_witness :
  snd (handle (PUT_edit "P001" age_150_body) one_patient) = one_patient.
Proof.
  apply (failed_request_keeps_file (PUT_edit "P001" age_150_body)
           one_patient
           (snd (handle (PUT_edit "P001" age_150_body) one_patient))
           (ValidationError [("age", less_than)])).
  vm_compute. reflexivity.
Defined.

(** ** What a passed check says *)

Lemma check_str_inr (v : jfield string) (s : string) :
  check_str v = inr s -> v = Value s.
Proof. destruct v; simpl; congruence. Qed.

Lemma check_age_inr (v : jfield Z) (n : Z) :
  check_age v = inr n -> v = Value n /\ 0 < n < 110.
Proof.
  destruct v as [| |m]; simpl; try discriminate.
  destruct (Z.leb_spec m 0) as [|Hpos]; [discriminate|].
  destruct (Z.leb_spec 110 m) as [|Hlt]; [discriminate|].
  intros Heq. injection Heq as <-. split; [reflexivity | lia].
Qed.

Lemma check_gender_inr (v : jfield string) (g : string) :
  check_gender v = inr g ->
  In g genders /\ exists g0 : string, v = Value g0 /\ g = capitalize g0.
Proof.
  destruct v as [| |g0]; try discriminate.
  rewrite check_gender_Value.
  destruct (in_literal (capitalize g0) genders) eqn:E; [|discriminate].
  intros H. injection H as <-. split.
  - now apply in_literal_In.
  - now exists g0.
Qed.

Lemma check_positive_inr (v : jfield float) (x : float) :
  check_positive v = inr x -> v = Value x /\ flt fzero x = true.
Proof.
  destruct v as [| |y]; simpl; try discriminate.
  destruct (flt fzero y) eqn:E; [|discriminate].
  intros H. injection H as <-. now split.
Qed.

(** ** Validation and dump, there and back *)

Lemma dump_of_validated (kw : RawObject) (p : Patient) (d : StoredRecord) :
  Patient_validate kw = Ok p ->
  model_dump p = Ok d ->
  wf_record d /\ Patient_validate (kwargs_of (id p) d) = Ok p.
Proof.
  intros Hp Hd. apply Patient_validate_Ok in Hp.
  destruct Hp as (_ & _ & _ & Ha & Hg & Hh & Hw).
  apply check_age_inr in Ha. destruct Ha as [_ Ha].
  apply check_gender_inr in Hg. destruct Hg as [Hg _].
  apply check_positive_inr in Hh. destruct Hh as [_ Hh].
  apply check_positive_inr in Hw. destruct Hw as [_ Hw].
  apply model_dump_Ok in Hd. destruct Hd as (b & Hb & ->).
  rewrite bmi_derived in Hb.
  assert (Hwf : wf_record
                  (mkStored (name p) (city p) (age p) (gender p) (height p)
                     (weight p) b (verdict_of b))).
  { unfold wf_record.
    cbn [s_age s_gender s_height s_weight s_bmi s_verdict].
    repeat apply conj; try assumption; try reflexivity; apply Ha. }
  split; [exact Hwf|].
  rewrite (Patient_validate_stored (id p) _ (wf_stored_fields _ Hwf)).
  now destruct p.
Qed.

(** Property X5.
    Whenever a patient that passed validation can be dumped, the record
    is well-formed, and the record with the ID attached is validated back
    to the same patient.  The patient can be dumped when the square of
    its height is neither zero nor, the height being finite, infinite. *)
Theorem validated_patient_round_trip (kw : RawObject) (p : Patient) :
  Patient_validate kw = Ok p ->
  (forall d : StoredRecord,
      model_dump p = Ok d ->
      wf_record d /\ Patient_validate (kwargs_of (id p) d) = Ok p) /\
  (is_zero (fmul (height p) (height p)) = false ->
   (is_finite (height p) = true ->
    is_inf (fmul (height p) (height p)) = false) ->
   exists d : StoredRecord, model_dump p = Ok d).
Proof.
  intros Hp. split.
  - intros d Hd. now apply (dump_of_validated kw).
  - intros Hz Hinf. eexists. apply model_dump_Ok. eexists.
    split; [|reflexivity].
    rewrite bmi_derived. now apply derived_bmi_square.
Qed.

Lemma validated_patient_round_trip_witness :
  wf_record john_doe_stored /\
  Patient_validate (kwargs_of (id john_doe) john_doe_stored) = Ok john_doe.
Proof.
  apply (proj1 (validated_patient_round_trip john_doe_body john_doe
                  ltac:(vm_compute; reflexivity))
           john_doe_stored).
  vm_compute. reflexivity.
Defined.

(** ** The invariant of the file *)

Lemma dict_set_ok (k : string) (v : StoredRecord) (d : Collection) :
  dict_ok d -> dict_ok (dict_set k v d).
Proof.
  unfold dict_ok. induction d as [|[k' v'] d IH]; simpl; intros Hnd.
  - constructor; [simpl; tauto | constructor].
  - inversion Hnd as [|? ? Hnotin Hnd']; subst.
    destruct (String.eqb k k') eqn:E; simpl; [exact Hnd|].
    apply String.eqb_neq in E. constructor; [|now apply IH].
    intros Hin. apply Hnotin.
    destruct (dict_mem k d) eqn:Hmem.
    + now rewrite (dict_set_keys _ _ _ Hmem) in Hin.
    + rewrite (dict_set_new _ _ _ Hmem), map_app, in_app_iff in Hin.
      destruct Hin as [Hin | [Hin | []]]; [assumption|].
      simpl in Hin. congruence.
Qed.

Lemma dict_del_keys (k k0 : string) (d : Collection) :
  In k0 (map fst (dict_del k d)) -> In k0 (map fst d).
Proof.
  induction d as [|[k' v'] d IH]; simpl; [tauto|].
  destruct (String.eqb k k'); simpl; tauto.
Qed.

Lemma dict_del_ok (k : string) (d : Collection) :
  dict_ok d -> dict_ok (dict_del k d).
Proof.
  unfold dict_ok. induction d as [|[k' v'] d IH]; simpl; intros Hnd.
  - constructor.
  - inversion Hnd as [|? ? Hnotin Hnd']; subst.
    destruct (String.eqb k k'); simpl; [assumption|].
    constructor; [|now apply IH].
    intros Hin. apply Hnotin. now apply (dict_del_keys k).
Qed.

Lemma dict_set_wf (k : string) (v : StoredRecord) (d : Collection) :
  wf_record v -> wf_collection d -> wf_collection (dict_set k v d).
Proof.
  intros Hv [Hok Hall]. split; [now apply dict_set_ok|].
  clear Hok. induction d as [|[k' v'] d IH]; simpl.
  - constructor; [exact Hv | constructor].
  - inversion Hall as [|? ? Hhd Htl]; subst.
    destruct (String.eqb k k').
    + now constructor.
    + constructor; [assumption | now apply IH].
Qed.

Lemma dict_del_wf (k : string) (d : Collection) :
  wf_collection d -> wf_collection (dict_del k d).
Proof.
  intros [Hok Hall]. split; [now apply dict_del_ok|].
  clear Hok. induction d as [|[k' v'] d IH]; simpl; [constructor|].
  inversion Hall as [|? ? Hhd Htl]; subst.
  destruct (String.eqb k k'); [assumption|].
  constructor; [assumption | now apply IH].
Qed.

Lemma handle_wf (r : request) (file : Collection) :
  wf_collection file -> wf_collection (snd (handle r file)).
Proof.
  intros Hwf.
  destruct r as [body | patient_id body | patient_id]; cbn [handle].
  - destruct (Patient_validate body) as [patient|e] eqn:Hp; [|exact Hwf].
    unfold create_patient, load_data, save_data.
    destruct (dict_mem (id patient) file); [exact Hwf|].
    destruct (model_dump patient) as [d|e] eqn:Hd; [|exact Hwf].
    cbn [snd]. apply dict_set_wf; [|exact Hwf].
    now apply (dump_of_validated body patient d).
  - destruct (PatientUpdate_validate body) as [u|e]; [|exact Hwf].
    unfold update_patient, load_data, save_data.
    destruct (dict_get patient_id file) as [old|]; [|exact Hwf].
    destruct (Patient_validate (merged_kwargs patient_id old u))
      as [p|e] eqn:Hp; cbn [bind]; [|exact Hwf].
    destruct (model_dump p) as [d|e] eqn:Hd; [|exact Hwf].
    cbn [snd]. apply dict_set_wf; [|exact Hwf].
    now apply (dump_of_validated _ p d Hp).
  - unfold delete_patient, load_data, save_data.
    destruct (dict_mem patient_id file); cbn [negb snd]; [|exact Hwf].
    now apply dict_del_wf.
Qed.

Lemma run_wf (requests : list request) (file : Collection) :
  wf_collection file -> wf_collection (run requests file).
Proof.
  revert file. induction requests as [|r rest IH]; simpl; intros file Hwf.
  - exact Hwf.
  - apply IH. now apply handle_wf.
Qed.

Lemma wf_collection_nil : wf_collection [].
Proof. split; constructor. Qed.

(** Property X6.
    Whatever requests are made and whatever they answer, a file whose
    keys are distinct and whose records are well-formed stays so: every
    stored record keeps its constraints, and its bmi and verdict are the
    ones derived from its height and weight.  This holds in particular
    for every file reached from the empty collection. *)
Theorem requests_keep_file_well_formed
  (requests : list request) (file : Collection) :
  (wf_collection file -> wf_collection (run requests file)) /\
  wf_collection (run requests []).
Proof.
  split.
  - apply run_wf.
  - apply run_wf, wf_collection_nil.
Qed.

Lemma requests_keep_file_well_formed_witness :
  run [POST_create jane_roe_body; PUT_edit "P001" rename_body;
       PUT_edit "P001" age_150_body; DELETE_delete "P003"]
      one_patient
  = [("P001",
      mkStored "Jane Doe" "New York" 30 "Male" (dec 175 2) (dec 702 1)
               (dec 2292 2) "Normal weight");
     ("P002",
      mkStored "Jane Roe" "Boston" 41 "Female" (dec 16 1) (dec 56 0)
               (dec 2187 2) "Normal weight")] /\
  wf_collection
    (run [POST_create jane_roe_body; PUT_edit "P001" rename_body;
          PUT_edit "P001" age_150_body; DELETE_delete "P003"]
         one_patient).
Proof.
  split; [vm_compute; reflexivity|].
  apply (proj1 (requests_keep_file_well_formed
                  [POST_create jane_roe_body; PUT_edit "P001" rename_body;
                   PUT_edit "P001" age_150_body; DELETE_delete "P003"]
                  one_patient)).
  split.
  - unfold dict_ok. simpl. constructor; [simpl; tauto | constructor].
  - constructor; [|constructor].
    unfold wf_record. cbn [snd]. repeat apply conj;
      try (vm_compute; reflexivity); try (simpl; tauto); simpl; lia.
Defined.

(** Property X7.
    After any sequence of requests on an empty collection, a sort with
    accepted parameters raises no exception and returns as many records
    as the file holds. *)
Theorem sort_after_requests
  (requests : list request) (sort_by order : string) :
  In sort_by valid_fields ->
  In order ["asc"; "desc"] ->
  exists out : list StoredRecord,
    sort_patients sort_by order (run requests []) = Ok out /\
    List.length out = List.length (run requests []).
Proof.
  intros Hs Ho.
  destruct (run_wf requests [] wf_collection_nil) as [_ Hall].
  eexists. split.
  - apply (sort_patients_materialize _ _ _ (map snd (run requests [])) Hs Ho).
    apply map_result_Ok.
    eapply Forall_impl; [|exact Hall].
    intros item Hitem. now apply materialize_wf.
  - rewrite (Permutation_length (sorted_perm _ _ _)). apply length_map.
Qed.

Lemma sort_after_requests_witness :
  exists out : list StoredRecord,
    sort_patients "weight" "desc"
      (run [POST_create john_doe_body; PUT_edit "P001" age_150_body] [])
    = Ok out /\
    List.length out
    = List.length
        (run [POST_create john_doe_body; PUT_edit "P001" age_150_body] []).
Proof.
  apply (sort_after_requests
           [POST_create john_doe_body; PUT_edit "P001" age_150_body]
           "weight" "desc").
  - simpl. tauto.
  - simpl. tauto.
Defined.

(** ** A sort over records that are not well-formed *)

Lemma map_result_total {A B : Type} (f : A -> result B) (l : list A) :
  Forall (fun a => exists b, f a = Ok b) l ->
  exists bs, map_result f l = Ok bs.
Proof.
  induction 1 as [|a l [b Ha] _ [bs IH]]; simpl.
  - now exists [].
  - rewrite Ha, IH. simpl. now eexists.
Qed.

Lemma Forall2_Forall_l {A B : Type} (P : A -> B -> Prop) (l : list A)
  (bs : list B) :
  Forall2 P l bs -> Forall (fun a => exists b, P a b) l.
Proof. induction 1; constructor; eauto. Qed.

Lemma Forall2_Forall_r {A B : Type} (P : A -> B -> Prop) (Q : B -> Prop)
  (l : list A) (bs : list B) :
  (forall a b, P a b -> Q b) -> Forall2 P l bs -> Forall Q bs.
Proof. intros HPQ. induction 1; constructor; eauto. Qed.

Lemma materialize_Ok (item : string * StoredRecord) (d : StoredRecord) :
  materialize item = Ok d <->
  exists (p : Patient) (b : float),
    Patient_validate (kwargs_of (fst item) (snd item)) = Ok p /\
    bmi p = Ok b /\
    d = mkStored (name p) (city p) (age p) (gender p) (height p) (weight p)
                 b (verdict_of b).
Proof.
  unfold materialize.
  destruct (Patient_validate (kwargs_of (fst item) (snd item))) as [p|e];
    cbn [bind].
  - rewrite model_dump_Ok. split.
    + intros (b & Hb & Hd). now exists p, b.
    + intros (p' & b & Hp & Hb & Hd). injection Hp as <-. now exists b.
  - split; [discriminate|]. intros (p & b & Hp & _). discriminate Hp.
Qed.

Lemma materialize_wf_record (item : string * StoredRecord)
  (d : StoredRecord) :
  materialize item = Ok d -> wf_record d.
Proof.
  unfold materialize.
  destruct (Patient_validate (kwargs_of (fst item) (snd item))) as [p|e] eqn:Hp;
    cbn [bind]; [|discriminate].
  intros Hd. now apply (dump_of_validated _ p d Hp).
Qed.

Lemma sort_patients_Ok (sort_by order : string) (file : Collection)
  (out : list StoredRecord) :
  In sort_by valid_fields -> In order ["asc"; "desc"] ->
  sort_patients sort_by order file = Ok out ->
  exists dumped : list StoredRecord,
    map_result materialize file = Ok dumped /\
    out = sorted (sort_key sort_by) dumped
            (if String.eqb order "desc" then true else false).
Proof.
  intros Hs Ho. apply in_literal_In in Hs, Ho.
  unfold sort_patients, load_data. rewrite Hs, Ho. cbn [negb].
  destruct (map_result _ file) as [patients|e] eqn:Hp; [|discriminate].
  cbn [bind].
  destruct (map_result model_dump patients) as [dumped|e] eqn:Hd;
    [|discriminate].
  cbn [bind]. intros H. injection H as <-.
  exists dumped. split; [|reflexivity].
  apply map_result_materialize. now exists patients.
Qed.

(** Property X8.
    With accepted parameters, the sort answers with a list exactly when
    every stored record passes the validation of the full record and the
    bmi of the patient it is read as can be computed: one record that
    does not makes the whole request fail.  A list it returns has the
    length of the collection and holds well-formed records only, also
    where the stored gender, bmi or verdict was out of date. *)
Theorem sort_revalidates_records
  (sort_by order : string) (file : Collection) :
  In sort_by valid_fields ->
  In order ["asc"; "desc"] ->
  ((exists out, sort_patients sort_by order file = Ok out) <->
   Forall
     (fun item =>
        exists (p : Patient) (b : float),
          Patient_validate (kwargs_of (fst item) (snd item)) = Ok p /\
          bmi p = Ok b)
     file) /\
  (forall out : list StoredRecord,
      sort_patients sort_by order file = Ok out ->
      List.length out = List.length file /\ Forall wf_record out).
Proof.
  intros Hs Ho. split; [split|].
  - intros [out Hout].
    destruct (sort_patients_Ok _ _ _ _ Hs Ho Hout) as (dumped & Hm & _).
    apply map_result_Forall2, Forall2_Forall_l in Hm.
    eapply Forall_impl; [|exact Hm].
    intros item [d Hd]. apply materialize_Ok in Hd.
    destruct Hd as (p & b & Hp & Hb & _). now exists p, b.
  - intros Hall.
    assert (Hm : exists dumped, map_result materialize file = Ok dumped).
    { apply map_result_total.
      eapply Forall_impl; [|exact Hall].
      intros item (p & b & Hp & Hb). eexists.
      apply materialize_Ok. exists p, b. repeat split; assumption. }
    destruct Hm as [dumped Hm]. eexists.
    exact (sort_patients_materialize _ _ _ dumped Hs Ho Hm).
  - intros out Hout.
    destruct (sort_patients_Ok _ _ _ _ Hs Ho Hout) as (dumped & Hm & ->).
    apply map_result_Forall2 in Hm.
    pose proof (sorted_perm (sort_key sort_by) dumped
                  (if String.eqb order "desc" then true else false))
      as Hperm.
    split.
    + rewrite (Permutation_length Hperm). symmetry.
      exact (Forall2_length Hm).
    + apply (Permutation_Forall (Permutation_sym Hperm)).
      apply (Forall2_Forall_r _ _ _ _ materialize_wf_record Hm).
Qed.

Lemma sort_revalidates_records_witness :
  List.length [refreshed_record] = List.length stale_collection /\
  Forall wf_record [refreshed_record].
Proof.
  apply (proj2 (sort_revalidates_records "bmi" "asc" stale_collection
                  (or_intror (or_intror (or_introl eq_refl)))
                  (or_introl eq_refl))
           [refreshed_record]).
  vm_compute. reflexivity.
Defined.

(** ** What the two models report and accept *)

Ltac named_or_not :=
  split;
  [ intros H; cbn in H;
    try (eexists; reflexivity);
    repeat (destruct H as [H | H]; [discriminate H|]); contradiction
  | intros [k Hk]; try discriminate Hk; cbn; tauto ].

(** Property X9.
    When the validation of a full record fails, the error lists at least
    one field, and it names a field exactly when the check of this field
    failed: every offending field is reported, not the first one only,
    and no other field is. *)
Theorem Patient_reports_offending_fields (kw : RawObject) (e : exn) :
  Patient_validate kw = Raise e ->
  exists errors : list (string * ErrKind),
    e = ValidationError errors /\
    errors <> [] /\
    (InvalidField "id" e <-> exists k, check_str (raw_id kw) = inl k) /\
    (InvalidField "name" e <-> exists k, check_str (raw_name kw) = inl k) /\
    (InvalidField "city" e <-> exists k, check_str (raw_city kw) = inl k) /\
    (InvalidField "age" e <-> exists k, check_age (raw_age kw) = inl k) /\
    (InvalidField "gender" e <->
     exists k, check_gender (raw_gender kw) = inl k) /\
    (InvalidField "height" e <->
     exists k, check_positive (raw_height kw) = inl k) /\
    (InvalidField "weight" e <->
     exists k, check_positive (raw_weight kw) = inl k).
Proof.
  unfold Patient_validate.
  destruct (check_str (raw_id kw)), (check_str (raw_name kw)),
    (check_str (raw_city kw)), (check_age (raw_age kw)),
    (check_gender (raw_gender kw)), (check_positive (raw_height kw)),
    (check_positive (raw_weight kw));
    intros Heq; try discriminate Heq; injection Heq as <-;
    eexists; (split; [reflexivity|]); cbn [err_of app];
    (split; [discriminate|]);
    repeat match goal with |- _ /\ _ => split end; named_or_not.
Qed.

Lemma Patient_reports_offending_fields_witness :
  exists errors : list (string * ErrKind),
    ValidationError [("city", string_type); ("age", less_than)]
    = ValidationError errors /\
    errors <> [] /\
    (InvalidField "age"
       (ValidationError [("city", string_type); ("age", less_than)]) <->
     exists k, check_age (Value 150) = inl k).
Proof.
  destruct (Patient_reports_offending_fields
              (mkRaw (Value "P001") (Value "John Doe") Null (Value 150)
                     (Value "male") (Value (dec 175 2)) (Value (dec 702 1)))
              (ValidationError [("city", string_type); ("age", less_than)])
              ltac:(vm_compute; reflexivity))
    as (errors & He & Hne & _ & _ & _ & Hage & _).
  exists errors. split; [|split]; assumption.
Defined.

(** Property X10.
    A body that the full record accepts is accepted as an update too,
    with every field set to the value the full record holds, the gender
    in its canonical form. *)
Theorem Patient_body_is_an_update (kw : RawObject) (p : Patient) :
  Patient_validate kw = Ok p ->
  PatientUpdate_validate kw
  = Ok (mkUpdate (Value (name p)) (Value (city p)) (Value (age p))
                 (Value (gender p)) (Value (height p)) (Value (weight p))).
Proof.
  intros Hp. apply Patient_validate_Ok in Hp.
  destruct Hp as (_ & Hn & Hc & Ha & Hg & Hh & Hw).
  apply check_str_inr in Hn, Hc.
  apply check_age_inr in Ha. destruct Ha as [Ha Hrange].
  apply check_gender_inr in Hg. destruct Hg as [Hin (g0 & Hg & Hcap)].
  apply check_positive_inr in Hh, Hw.
  destruct Hh as [Hh Hhpos], Hw as [Hw Hwpos].
  unfold PatientUpdate_validate. rewrite Hn, Hc, Ha, Hg, Hh, Hw.
  rewrite check_opt_gender_Value. rewrite <- Hcap.
  apply in_literal_In in Hin. rewrite Hin.
  cbn [check_opt_str check_opt_age check_opt_positive].
  rewrite Hhpos, Hwpos.
  destruct (Z.leb_spec (age p) 0); [lia | reflexivity].
Qed.

Lemma Patient_body_is_an_update_witness :
  PatientUpdate_validate john_doe_body
  = Ok (mkUpdate (Value "John Doe") (Value "New York") (Value 30)
                 (Value "Male") (Value (dec 175 2)) (Value (dec 702 1))).
Proof.
  apply (Patient_body_is_an_update john_doe_body john_doe).
  vm_compute. reflexivity.
Defined.

(** Property X11.
    The gender is read without regard to case: two bodies that differ in
    the case of the letters of the gender only get the same answer from
    either model, the same patient or update, or the same error. *)
Theorem gender_case_insensitive (kw : RawObject) (g1 g2 : string) :
  lower g1 = lower g2 ->
  Patient_validate (with_gender kw g1) = Patient_validate (with_gender kw g2)
  /\
  PatientUpdate_validate (with_gender kw g1)
  = PatientUpdate_validate (with_gender kw g2).
Proof.
  intros Hlow.
  assert (Hcap : capitalize g1 = capitalize g2).
  { now rewrite <- (capitalize_lower g1), <- (capitalize_lower g2), Hlow. }
  unfold Patient_validate, PatientUpdate_validate.
  cbn [with_gender raw_id raw_name raw_city raw_age raw_gender raw_height
       raw_weight].
  rewrite !check_gender_Value, !check_opt_gender_Value, Hcap.
  split; reflexivity.
Qed.

Lemma gender_case_insensitive_witness :
  Patient_validate (with_gender john_doe_body "FEMALE")
  = Patient_validate (with_gender john_doe_body "female").
Proof.
  apply (gender_case_insensitive john_doe_body "FEMALE" "female").
  reflexivity.
Defined.

(** ** The verdict, read backwards *)

(** The label of each range of bmi. *)
Lemma verdict_of_ranges (b : float) :
  (flt b (dec 185 1) = true -> verdict_of b = "Underweight") /\
  (fle (dec 185 1) b = true -> flt b (dec 249 1) = true ->
   verdict_of b = "Normal weight") /\
  (fle (dec 25 0) b = true -> flt b (dec 299 1) = true ->
   verdict_of b = "Overweight") /\
  (fle (dec 249 1) b = true -> flt b (dec 25 0) = true ->
   verdict_of b = "Obesity") /\
  (fle (dec 299 1) b = true -> verdict_of b = "Obesity").
Proof.
  unfold verdict_of.
  repeat apply conj.
  - intros H. now rewrite H.
  - intros H1 H2. destruct (flt_not_nan _ _ H2) as [Hnan _].
    rewrite H1, H2. cbn [andb].
    destruct (flt b (dec 185 1)) eqn:E1; [|reflexivity].
    exfalso. by_rank b Hnan. lia.
  - intros H1 H2. destruct (flt_not_nan _ _ H2) as [Hnan _].
    rewrite H1, H2. cbn [andb].
    destruct (flt b (dec 185 1)) eqn:E1; [exfalso; by_rank b Hnan; lia|].
    destruct (flt b (dec 249 1)) eqn:E2; [exfalso; by_rank b Hnan; lia|].
    now rewrite andb_false_r.
  - intros H1 H2. destruct (flt_not_nan _ _ H2) as [Hnan _].
    destruct (flt b (dec 185 1)) eqn:E1; [exfalso; by_rank b Hnan; lia|].
    destruct (flt b (dec 249 1)) eqn:E2; [exfalso; by_rank b Hnan; lia|].
    rewrite andb_false_r.
    destruct (fle (dec 25 0) b) eqn:E3; [exfalso; by_rank b Hnan; lia|].
    reflexivity.
  - intros H1. destruct (fle_not_nan _ _ H1) as [_ Hnan].
    destruct (flt b (dec 185 1)) eqn:E1; [exfalso; by_rank b Hnan; lia|].
    destruct (flt b (dec 249 1)) eqn:E2; [exfalso; by_rank b Hnan; lia|].
    rewrite andb_false_r.
    destruct (flt b (dec 299 1)) eqn:E3; [exfalso; by_rank b Hnan; lia|].
    now rewrite andb_false_r.
Qed.

(** A bmi that is a number lies in one of the five ranges. *)
Lemma bmi_range_cases (b : float) :
  is_nan b = false ->
  flt b (dec 185 1) = true \/
  (fle (dec 185 1) b = true /\ flt b (dec 249 1) = true) \/
  (fle (dec 249 1) b = true /\ flt b (dec 25 0) = true) \/
  (fle (dec 25 0) b = true /\ flt b (dec 299 1) = true) \/
  fle (dec 299 1) b = true.
Proof.
  intros Hnan.
  destruct (flt b (dec 185 1)) eqn:E1; [now left|].
  apply (flt_false_fle b (dec 185 1) Hnan eq_refl) in E1. right.
  destruct (flt b (dec 249 1)) eqn:E2; [now left|].
  apply (flt_false_fle b (dec 249 1) Hnan eq_refl) in E2. right.
  destruct (flt b (dec 25 0)) eqn:E3; [now left|].
  apply (flt_false_fle b (dec 25 0) Hnan eq_refl) in E3. right.
  destruct (flt b (dec 299 1)) eqn:E4; [now left|].
  apply (flt_false_fle b (dec 299 1) Hnan eq_refl) in E4. now right.
Qed.

(** Property X12.
    Each label of the verdict stands for one range of bmi: Underweight
    for a bmi below 18.5 and for no other, Normal weight for 18.5 up to
    24.9, Overweight for 25 up to 29.9, and Obesity for the rest: the
    values from 24.9 up to 25, every bmi from 29.9 on, and a bmi that is
    not a number. *)
Theorem verdict_ranges (b : float) :
  (verdict_of b = "Underweight" <-> flt b (dec 185 1) = true) /\
  (verdict_of b = "Normal weight" <->
   fle (dec 185 1) b = true /\ flt b (dec 249 1) = true) /\
  (verdict_of b = "Overweight" <->
   fle (dec 25 0) b = true /\ flt b (dec 299 1) = true) /\
  (verdict_of b = "Obesity" <->
   (fle (dec 249 1) b = true /\ flt b (dec 25 0) = true) \/
   fle (dec 299 1) b = true \/ is_nan b = true).
Proof.
  destruct (verdict_of_ranges b) as (R1 & R2 & R3 & R4 & R5).
  destruct (is_nan b) eqn:Hnan.
  - destruct b; try discriminate Hnan. clear.
    assert (V : verdict_of S754_nan = "Obesity") by (vm_compute; reflexivity).
    assert (L : forall c, flt S754_nan c = false)
      by (intros c; destruct c; reflexivity).
    assert (L' : forall c, fle c S754_nan = false)
      by (intros c; destruct c; reflexivity).
    rewrite V, !L, !L'.
    repeat match goal with |- _ /\ _ => split end; split; intros H;
      try discriminate H; try reflexivity.
    + destruct H as [H _]. discriminate H.
    + destruct H as [H _]. discriminate H.
    + right. right. reflexivity.
  - destruct (bmi_range_cases b Hnan)
      as [C | [[C1 C2] | [[C1 C2] | [[C1 C2] | C]]]];
      [ rewrite (R1 C) | rewrite (R2 C1 C2) | rewrite (R4 C1 C2)
      | rewrite (R3 C1 C2) | rewrite (R5 C) ];
      clear R1 R2 R3 R4 R5;
      (repeat match goal with |- _ /\ _ => split end); split; intros H;
      try discriminate H; try reflexivity; try tauto;
      exfalso;
      repeat match goal with
        | H0 : _ /\ _ |- _ => destruct H0
        | H0 : _ \/ _ |- _ => destruct H0
        end;
      try congruence; by_rank b Hnan; lia.
Qed.

Lemma verdict_ranges_witness :
  verdict_of (dec 2495 2) = "Obesity" /\ verdict_of (dec 25 0) = "Overweight".
Proof.
  destruct (verdict_ranges (dec 2495 2)) as (_ & _ & _ & Hob).
  destruct (verdict_ranges (dec 25 0)) as (_ & _ & Hover & _).
  split.
  - apply Hob. left. split; vm_compute; reflexivity.
  - apply Hover. split; vm_compute; reflexivity.
Defined.

(** ** When an update goes through *)

Lemma PatientUpdate_validate_Ok (kw : RawObject) (u : PatientUpdate) :
  PatientUpdate_validate kw = Ok u ->
  check_opt_str (raw_name kw) = inr (u_name u) /\
  check_opt_str (raw_city kw) = inr (u_city u) /\
  check_opt_age (raw_age kw) = inr (u_age u) /\
  check_opt_gender (raw_gender kw) = inr (u_gender u) /\
  check_opt_positive (raw_height kw) = inr (u_height u) /\
  check_opt_positive (raw_weight kw) = inr (u_weight u).
Proof.
  unfold PatientUpdate_validate.
  destruct (check_opt_str (raw_name kw)), (check_opt_str (raw_city kw)),
    (check_opt_age (raw_age kw)), (check_opt_gender (raw_gender kw)),
    (check_opt_positive (raw_height kw)),
    (check_opt_positive (raw_weight kw)); try discriminate.
  intros H. injection H as <-. cbn. repeat split.
Qed.

(** A validated update carries a canonical gender, a positive height
    and weight and a positive age. *)
Lemma validated_fields (u : PatientUpdate) :
  validated u ->
  (forall n, u_age u = Value n -> 0 < n) /\
  (forall g, u_gender u = Value g -> In g genders) /\
  (forall x, u_height u = Value x -> flt fzero x = true) /\
  (forall x, u_weight u = Value x -> flt fzero x = true).
Proof.
  intros [body Hbody].
  pose proof (PatientUpdate_validate_Ok body u Hbody)
    as (_ & _ & Ha & Hg & Hh & Hw).
  repeat apply conj.
  - intros n Hn. rewrite Hn in Ha.
    destruct (raw_age body) as [| |m]; simpl in Ha; try discriminate.
    destruct (Z.leb_spec m 0) as [|Hpos]; [discriminate|].
    injection Ha as ->. exact Hpos.
  - intros g Hgen. rewrite Hgen in Hg.
    destruct (raw_gender body) as [| |g0]; try discriminate.
    rewrite check_opt_gender_Value in Hg.
    destruct (in_literal (capitalize g0) genders) eqn:E; [|discriminate].
    injection Hg as <-. now apply in_literal_In.
  - intros x Hx. rewrite Hx in Hh.
    destruct (raw_height body) as [| |y]; simpl in Hh; try discriminate.
    destruct (flt fzero y) eqn:E; [|discriminate].
    now injection Hh as ->.
  - intros x Hx. rewrite Hx in Hw.
    destruct (raw_weight body) as [| |y]; simpl in Hw; try discriminate.
    destruct (flt fzero y) eqn:E; [|discriminate].
    now injection Hw as ->.
Qed.

Lemma check_str_not_Null (old v : string) (upd : jfield string) :
  check_str (overwrite (Value old) upd) = inr v -> upd <> Null.
Proof. destruct upd; simpl; congruence. Qed.

Lemma check_age_not_Null (old v : Z) (upd : jfield Z) :
  check_age (overwrite (Value old) upd) = inr v ->
  upd <> Null /\ forall n, upd = Value n -> n < 110.
Proof.
  destruct upd as [| |m]; cbn [overwrite]; intros H.
  - split; [discriminate | intros n Hn; discriminate Hn].
  - discriminate H.
  - apply check_age_inr in H. destruct H as [Hv Hrange].
    injection Hv as ->.
    split; [discriminate|]. intros n Hn. injection Hn as <-. lia.
Qed.

Lemma check_gender_not_Null (old v : string) (upd : jfield string) :
  check_gender (overwrite (Value old) upd) = inr v -> upd <> Null.
Proof. destruct upd; simpl; congruence. Qed.

Lemma check_positive_not_Null (old v : float) (upd : jfield float) :
  check_positive (overwrite (Value old) upd) = inr v -> upd <> Null.
Proof. destruct upd; simpl; congruence. Qed.

(** Property X14.
    On an existing well-formed record, a validated update goes through
    exactly when it sets no field to null, sets no age of 110 or more,
    and the bmi of the merged height and weight can be computed.
    Otherwise the handler raises the validation error of the merged
    record, or the error of the division or of the square, and leaves
    the file as it was. *)
Theorem update_goes_through_iff
  (patient_id : string) (old : StoredRecord) (u : PatientUpdate)
  (file : Collection) :
  dict_get patient_id file = Some old ->
  wf_record old ->
  validated u ->
  ((exists (response : Response) (file' : Collection),
       update_patient patient_id u file = (Ok response, file')) <->
   (u_name u <> Null /\ u_city u <> Null /\ u_age u <> Null /\
    u_gender u <> Null /\ u_height u <> Null /\ u_weight u <> Null /\
    (forall n : Z, u_age u = Value n -> n < 110) /\
    exists b : float,
      derived_bmi (merged (u_height u) (s_height old))
                  (merged (u_weight u) (s_weight old)) = Ok b)) /\
  ((forall (response : Response) (file' : Collection),
       update_patient patient_id u file <> (Ok response, file')) ->
   exists e : exn,
     update_patient patient_id u file = (Raise e, file) /\
     ((exists errors : list (string * ErrKind), e = ValidationError errors) \/
      e = ZeroDivisionError \/ e = OverflowError)).
Proof.
  intros Hget Hwf Hval.
  destruct (validated_fields u Hval) as (Vage & Vgen & Vh & Vw).
  split; [split|].
  - intros (response & file' & Hrun).
    destruct (update_patient_Ok _ _ _ _ _ _ Hget Hrun) as (b & Hb & _ & _).
    unfold update_patient, load_data, save_data in Hrun. rewrite Hget in Hrun.
    destruct (Patient_validate (merged_kwargs patient_id old u))
      as [p|e] eqn:Hp; [|discriminate].
    apply Patient_validate_Ok in Hp.
    cbn [merged_kwargs kwargs_of raw_id raw_name raw_city raw_age raw_gender
         raw_height raw_weight] in Hp.
    destruct Hp as (_ & Hn & Hc & Ha & Hg & Hh & Hw).
    apply check_str_not_Null in Hn, Hc.
    apply check_age_not_Null in Ha. destruct Ha as [Ha Hlt].
    apply check_gender_not_Null in Hg.
    apply check_positive_not_Null in Hh, Hw.
    repeat match goal with |- _ /\ _ => split end; try assumption.
    now exists b.
  - intros (Hn & Hc & Ha & Hg & Hh & Hw & Hlt & b & Hb).
    assert (Hu : supplied_ok u).
    { unfold supplied_ok, supplied_str.
      repeat match goal with |- _ /\ _ => split end; try assumption.
      - destruct (u_age u) as [| |n] eqn:E; simpl; try tauto.
        split; [now apply Vage | now apply Hlt].
      - destruct (u_gender u) as [| |g] eqn:E; simpl; try tauto.
        now apply Vgen.
      - destruct (u_height u) as [| |x] eqn:E; simpl; try tauto.
        now apply Vh.
      - destruct (u_weight u) as [| |x] eqn:E; simpl; try tauto.
        now apply Vw. }
    rewrite (update_patient_runs patient_id old u file b Hget
               (wf_stored_fields _ Hwf) Hu Hb).
    now do 2 eexists.
  - intros Hfail. revert Hfail.
    unfold update_patient, load_data, save_data. rewrite Hget.
    destruct (Patient_validate (merged_kwargs patient_id old u))
      as [p|e] eqn:Hp; cbn [bind].
    + destruct (model_dump p) as [d|e] eqn:Hd; intros Hfail.
      * exfalso. eapply Hfail. reflexivity.
      * exists e. split; [reflexivity|]. right.
        now apply (model_dump_raises p).
    + intros _. exists e. split; [reflexivity|]. left.
      now apply (Patient_validate_raises _ _ Hp).
Qed.

Lemma update_goes_through_iff_witness :
  (exists (response : Response) (file' : Collection),
      update_patient "P001" rename_update one_patient
      = (Ok response, file')) /\
  exists e : exn,
    update_patient "P001"
      (mkUpdate Null Absent Absent Absent Absent Absent) one_patient
    = (Raise e, one_patient) /\
    ((exists errors : list (string * ErrKind), e = ValidationError errors) \/
     e = ZeroDivisionError \/ e = OverflowError).
Proof.
  assert (Hwf : wf_record john_doe_stored).
  { unfold wf_record. repeat match goal with |- _ /\ _ => split end;
      try (vm_compute; reflexivity); try (simpl; tauto); simpl; lia. }
  split.
  - apply (proj1 (update_goes_through_iff "P001" john_doe_stored
                    rename_update one_patient eq_refl Hwf
                    (ex_intro _ rename_body eq_refl))).
    repeat match goal with |- _ /\ _ => split end; try discriminate.
    exists (dec 2292 2). vm_compute. reflexivity.
  - apply (proj2 (update_goes_through_iff "P001" john_doe_stored
                    (mkUpdate Null Absent Absent Absent Absent Absent)
                    one_patient eq_refl Hwf
                    (ex_intro _
                       (mkRaw Absent Null Absent Absent Absent Absent Absent)
                       eq_refl))).
    intros response file' H. vm_compute in H. discriminate H.
Defined.

(** ** The same update twice *)

Lemma check_age_again (old n : Z) (upd : jfield Z) :
  check_age (overwrite (Value old) upd) = inr n ->
  check_age (overwrite (Value n) upd) = inr n.
Proof.
  destruct upd as [| |m]; cbn [overwrite]; intros H; try exact H.
  apply check_age_inr in H. now apply check_age_ok.
Qed.

Lemma check_gender_again (old g : string) (upd : jfield string) :
  check_gender (overwrite (Value old) upd) = inr g ->
  check_gender (overwrite (Value g) upd) = inr g.
Proof.
  destruct upd as [| |m]; cbn [overwrite]; intros H; try exact H.
  apply check_gender_inr in H. now apply check_gender_ok.
Qed.

Lemma check_positive_again (old x : float) (upd : jfield float) :
  check_positive (overwrite (Value old) upd) = inr x ->
  check_positive (overwrite (Value x) upd) = inr x.
Proof.
  destruct upd as [| |m]; cbn [overwrite]; intros H; try exact H.
  apply check_positive_inr in H. now apply check_positive_ok.
Qed.

Lemma check_str_again (old s : string) (upd : jfield string) :
  check_str (overwrite (Value old) upd) = inr s ->
  check_str (overwrite (Value s) upd) = inr s.
Proof.
  destruct upd as [| |m]; cbn [overwrite]; intros H; try exact H.
  reflexivity.
Qed.

(** Property X15.
    An update that went through can be sent again: the second request
    succeeds as well and leaves the file as the first one made it. *)
Theorem update_twice
  (patient_id : string) (u : PatientUpdate) (file file' : Collection)
  (response : Response) :
  update_patient patient_id u file = (Ok response, file') ->
  update_patient patient_id u file' = (Ok response, file').
Proof.
  unfold update_patient, load_data, save_data.
  destruct (dict_get patient_id file) as [old|] eqn:Hget; [|discriminate].
  destruct (Patient_validate (merged_kwargs patient_id old u))
    as [p|e] eqn:Hp; [|discriminate].
  cbn [bind].
  destruct (model_dump p) as [d|e] eqn:Hd; [|discriminate].
  intros H. injection H as <- <-.
  rewrite dict_get_set_same.
  assert (Hp' : Patient_validate (merged_kwargs patient_id d u) = Ok p).
  { apply Patient_validate_Ok in Hp. apply Patient_validate_Ok.
    cbn [merged_kwargs kwargs_of raw_id raw_name raw_city raw_age raw_gender
         raw_height raw_weight] in *.
    destruct Hp as (Hi & Hn & Hc & Ha & Hg & Hh & Hw).
    pose proof Hd as Hd'. apply model_dump_Ok in Hd'.
    destruct Hd' as (b & _ & ->).
    cbn [s_name s_city s_age s_gender s_height s_weight].
    repeat apply conj.
    - exact Hi.
    - now apply (check_str_again (s_name old)).
    - now apply (check_str_again (s_city old)).
    - now apply (check_age_again (s_age old)).
    - now apply (check_gender_again (s_gender old)).
    - now apply (check_positive_again (s_height old)).
    - now apply (check_positive_again (s_weight old)). }
  rewrite Hp'. cbn [bind]. rewrite Hd.
  rewrite (dict_set_same patient_id d (dict_set patient_id d file))
    by apply dict_get_set_same.
  reflexivity.
Qed.

Lemma update_twice_witness :
  update_patient "B"
    (mkUpdate Absent Absent Absent Absent Absent (Value (dec 90 0)))
    [("A", rec_A); ("B", rec_B_90); ("C", rec_C)]
  = (Ok (200, "Patient record updated successfully"),
     [("A", rec_A); ("B", rec_B_90); ("C", rec_C)]).
Proof.
  apply (update_twice "B"
           (mkUpdate Absent Absent Absent Absent Absent (Value (dec 90 0)))
           abc).
  vm_compute. reflexivity.
Defined.

(** ** What an update body may hold *)



(** ** Updates of two patients *)

Lemma dict_set_comm (k1 k2 : string) (v1 v2 : StoredRecord)
  (d : Collection) :
  k1 <> k2 ->
  dict_mem k1 d = true -> dict_mem k2 d = true ->
  dict_set k1 v1 (dict_set k2 v2 d) = dict_set k2 v2 (dict_set k1 v1 d).
Proof.
  intros Hne. induction d as [|[k v] d IH]; simpl; [discriminate|].
  destruct (String.eqb k1 k) eqn:E1, (String.eqb k2 k) eqn:E2; simpl;
    rewrite ?E1, ?E2; intros H1 H2.
  - apply String.eqb_eq in E1, E2. congruence.
  - reflexivity.
  - reflexivity.
  - now rewrite IH.
Qed.

(** Property X17.
    Updates of two different patients do not see each other: made in
    either order they both go through, with the same answers and the same
    file at the end. *)
Theorem updates_commute
  (id1 id2 : string) (u1 u2 : PatientUpdate)
  (file file1 file12 : Collection) (r1 r2 : Response) :
  id1 <> id2 ->
  update_patient id1 u1 file = (Ok r1, file1) ->
  update_patient id2 u2 file1 = (Ok r2, file12) ->
  exists file2 : Collection,
    update_patient id2 u2 file = (Ok r2, file2) /\
    update_patient id1 u1 file2 = (Ok r1, file12).
Proof.
  intros Hne. unfold update_patient, load_data, save_data.
  destruct (dict_get id1 file) as [old1|] eqn:Hget1; [|discriminate].
  destruct (_ <- Patient_validate (merged_kwargs id1 old1 u1) ;; _)
    as [d1|e] eqn:Hd1; [|discriminate].
  intros H. injection H as <- <-.
  rewrite (dict_get_set_other id1 id2) by congruence.
  destruct (dict_get id2 file) as [old2|] eqn:Hget2; [|discriminate].
  destruct (_ <- Patient_validate (merged_kwargs id2 old2 u2) ;; _)
    as [d2|e] eqn:Hd2; [|discriminate].
  intros H. injection H as <- <-.
  eexists. split; [reflexivity|].
  rewrite (dict_get_set_other id2 id1) by congruence.
  rewrite Hget1, Hd1.
  rewrite (dict_set_comm id1 id2 d1 d2 file Hne); [reflexivity | |].
  - rewrite dict_mem_get. now rewrite Hget1.
  - rewrite dict_mem_get. now rewrite Hget2.
Qed.

Lemma updates_commute_witness :
  exists file2 : Collection,
    update_patient "C" empty_update abc
    = (Ok (200, "Patient record updated successfully"), file2) /\
    update_patient "A" empty_update file2
    = (Ok (200, "Patient record updated successfully"), abc).
Proof.
  apply (updates_commute "A" "C" empty_update empty_update abc abc abc).
  - discriminate.
  - vm_compute. reflexivity.
  - vm_compute. reflexivity.
Defined.

(** ** What a create request makes of the bmi *)

(** Property X18.
    A create request for an ID that is not in the collection stores the
    dump of the patient at the end of the collection when the bmi can be
    computed.  When it cannot, the exception of the division or of the
    square leaves the handler as it is and nothing is stored, although
    the body passed validation. *)
Theorem create_patient_outcome (patient : Patient) (file : Collection) :
  dict_mem (id patient) file = false ->
  (forall b : float,
      bmi patient = Ok b ->
      create_patient patient file
      = (Ok (201, "Patient record created successfully"),
         (file ++
          [(id patient,
            mkStored (name patient) (city patient) (age patient)
                     (gender patient) (height patient) (weight patient)
                     b (verdict_of b))])%list)) /\
  (forall e : exn,
      bmi patient = Raise e ->
      create_patient patient file = (Raise e, file) /\
      (e = ZeroDivisionError \/ e = OverflowError)).
Proof.
  intros Hmem. unfold create_patient, load_data, save_data.
  rewrite Hmem, model_dump_bmi. split.
  - intros b Hb. rewrite Hb. cbn [bind].
    now rewrite (dict_set_new _ _ _ Hmem).
  - intros e He. rewrite He. cbn [bind]. split; [reflexivity|].
    now apply (bmi_raises patient).
Qed.

Lemma create_patient_outcome_witness :
  create_patient tiny_patient one_patient
  = (Raise ZeroDivisionError, one_patient) /\
  (ZeroDivisionError = ZeroDivisionError \/
   ZeroDivisionError = OverflowError).
Proof.
  apply (proj2 (create_patient_outcome tiny_patient one_patient eq_refl)).
  vm_compute. reflexivity.
Defined.
